(** * Performance gate: threshold evaluation and capped history

    A shallow embedding of [optimization-scripts/performance-check.js].

    - JavaScript numbers are IEEE-754 binary64 values, modelled with the
      executable specification [spec_float] (precision 53, emax 1024).
    - The file system, the environment and the console are an explicit
      state; exceptions and [process.exit] are outcomes of a small monad. *)

From Stdlib Require Import ZArith Lia List Bool.
From Stdlib Require Import Floats.SpecFloat.
From Stdlib Require Import Sorting.Sorted.
From stdpp Require Import base option strings list gmap pretty.

Local Open Scope Z_scope.

(** ** JavaScript numbers *)

Module Js.

Definition number : Type := spec_float.

Definition prec : Z := 53.
Definition emax : Z := 1024.

Definition NaN : number := S754_nan.

(** Integer literal. *)
Definition of_Z (n : Z) : number := binary_normalize prec emax n 0 false.

(** Decimal literal [n / d], correctly rounded ([n] and [d] are exact). *)
Definition of_frac (n d : Z) : number := SFdiv prec emax (of_Z n) (of_Z d).

Definition mul (x y : number) : number := SFmul prec emax x y.

Definition add (x y : number) : number := SFadd prec emax x y.

Definition is_nan (x : number) : bool :=
  match x with S754_nan => true | _ => false end.

(** IsLessThan(x, y) of ECMAScript: [None] is the "undefined" answer given
    when an operand is NaN. *)
Definition IsLessThan (x y : number) : option bool :=
  match SFcompare x y with
  | Some Lt => Some true
  | Some _ => Some false
  | None => None
  end.

(** [x < y] *)
Definition lt (x y : number) : bool :=
  match IsLessThan x y with Some true => true | _ => false end.

(** [x > y] *)
Definition gt (x y : number) : bool :=
  match IsLessThan y x with Some true => true | _ => false end.

(** [x <= y] *)
Definition le (x y : number) : bool :=
  match IsLessThan y x with Some false => true | _ => false end.

(** [x >= y] *)
Definition ge (x y : number) : bool :=
  match IsLessThan x y with Some false => true | _ => false end.

(** ToBoolean on a number: [+0], [-0] and NaN are falsy. *)
Definition truthy (x : number) : bool :=
  match x with
  | S754_zero _ | S754_nan => false
  | _ => true
  end.

(** [Math.round]: non-finite and integral values are returned as they are;
    otherwise the nearest integer, ties towards +∞, that is
    [floor (x + 1/2)] computed exactly.  A zero result keeps the sign of
    the argument. *)
Definition Math_round (x : number) : number :=
  match x with
  | S754_finite s m e =>
      if 0 <=? e then x
      else
        let n := Z.shiftr (2 * cond_Zopp s (Z.pos m) + 2 ^ (- e)) (1 - e) in
        binary_normalize prec emax n 0 s
  | _ => x
  end.

End Js.

(** ** Data model *)

Abbreviation number := Js.number.

(** A JavaScript object literal read through [Object.entries]: own keys in
    insertion order. *)
Definition Entries : Type := list (string * number).

(** What reading [table[key]] gives: the number of an own entry; a member
    inherited from [Object.prototype] (a function, or the prototype itself
    for [__proto__]); or [undefined]. *)
Inductive Value :=
  | undefined
  | num (x : number)
  | inherited (key : string).

(** [status: 'passed' | 'failed'] and [type: 'score' | 'metric'] of a
    result record. *)
Inductive Status := Passed | Failed.
Inductive Kind := Score | Metric.

(** One element of [results].  [threshold] is [THRESHOLDS[name]] as read. *)
Record Result := {
  type : Kind;
  category : string;
  value : number;
  threshold : Value;
  status : Status
}.

(** The two locals of [checkPerformance] that the loops mutate. *)
Record Locals := {
  passed : bool;
  results : list Result
}.

(** [historyData] *)
Record HistoryData := {
  timestamp : string;
  commit : string;
  branch : string;
  scores : Entries;
  metrics : Entries
}.

(** [lhr]: the [score] of each category and the [numericValue] of each
    audit, by key, as the number the script's arithmetic sees (NaN for a
    field that is absent or not numeric).  A key that is itself absent
    makes the property access throw. *)
Record Lhr := {
  categories : gmap string number;
  audits : gmap string number
}.

(** Content of [LIGHTHOUSE_REPORT]. *)
Inductive ReportFile :=
  | report_garbled (message : string)   (* JSON.parse or [lhr.*] throws *)
  | report_json (lhr : Lhr).

(** Content of [PERFORMANCE_LOG], as the array [JSON.parse] gives.  The
    entry a save writes is recorded as the script builds it, before
    [JSON.stringify]; [written_entry] below says what of it the
    serialisation keeps. *)
Inductive HistoryFile :=
  | history_garbled (message : string)  (* read, JSON.parse or [push] throws *)
  | history_json (history : list HistoryData).

(** The generated HTML document, by what is interpolated into it. *)
Record Html := {
  generated_on : string;
  detailed_results : list Result;
  chart_scores : Entries;
  chart_metrics : Entries
}.

(** The [./dist] directory: the recursive listing with file sizes. *)
Inductive BuildDir :=
  | dist_unreadable (message : string)  (* readdirSync or statSync throws *)
  | dist_files (files : list (string * Z)).

(** Console output, one constructor per message of the script. *)
Inductive Line :=
  | Analyzing
  | ReportNotFound
  | ScoresHeader
  | Rule
  | ScoreLine (ok : bool) (category : string) (score : number) (threshold : Value)
  | VitalsHeader
  | MetricLine (ok : bool) (metric : string) (rounded : number) (unit' : string) (threshold : Value)
  | HistoryUpdated
  | HistoryWarning (message : string)
  | BundleDirMissing
  | BundleHeader
  | BundleLine (ok : bool) (name : string) (size : Z)
  | BundleTotal (ok : bool) (total limit : Z)
  | BundleWarning (message : string)
  | DoubleRule
  | AllPassed
  | ChecksFailed
  | Suggestions
  | ReportGenerated
  | AnalysisError (message : string).

Inductive Level := Log | Warn | Error.

(** Everything outside the script that it reads or changes. *)
Record World := {
  lighthouse_report : option ReportFile;
  performance_log : option HistoryFile;
  performance_report : option Html;
  reports_dir : bool;
  build_dir : option BuildDir;
  GITHUB_SHA : option string;
  GITHUB_REF_NAME : option string;
  clock : string;
  (* faults of the file system: the error a call would throw; a write that
     throws is recorded as leaving its file as it was, where the system may
     as well have truncated it *)
  mkdir_error : option string;
  history_write_error : option string;
  report_write_error : option string;
  console : list (Level * Line)
}.

(** ** Control flow: return, throw, [process.exit] *)

Inductive Outcome (A : Type) :=
  | Return (a : A)
  | Throw (message : string)
  | Exit (code : Z).
Arguments Return {A} a.
Arguments Throw {A} message.
Arguments Exit {A} code.

Definition M (A : Type) : Type := World -> Outcome A * World.

#[export] Instance M_ret : MRet M := fun A a w => (Return a, w).

#[export] Instance M_bind : MBind M := fun A B k m w =>
  match m w with
  | (Return a, w') => k a w'
  | (Throw e, w') => (Throw e, w')
  | (Exit c, w') => (Exit c, w')
  end.

Definition throw {A} (message : string) : M A := fun w => (Throw message, w).

(** [process.exit(code)]: nothing runs after it, no handler sees it. *)
Definition process_exit {A} (code : Z) : M A := fun w => (Exit code, w).

(** [try { body } catch (error) { handler(error.message) }] *)
Definition try_catch {A} (body : M A) (handler : string -> M A) : M A := fun w =>
  match body w with
  | (Throw e, w') => handler e w'
  | r => r
  end.

Definition get {A} (f : World -> A) : M A := fun w => (Return (f w), w).

Definition modify (f : World -> World) : M unit := fun w => (Return tt, f w).

(** [array.forEach] with the callback acting on the enclosing locals. *)
Fixpoint forEach {A S} (f : A -> S -> M S) (l : list A) (s : S) : M S :=
  match l with
  | [] => mret s
  | a :: l' => s' ← f a s; forEach f l' s'
  end.

Definition set_console (c : list (Level * Line)) (w : World) : World :=
  {| lighthouse_report := lighthouse_report w;
     performance_log := performance_log w;
     performance_report := performance_report w;
     reports_dir := reports_dir w;
     build_dir := build_dir w;
     GITHUB_SHA := GITHUB_SHA w;
     GITHUB_REF_NAME := GITHUB_REF_NAME w;
     clock := clock w;
     mkdir_error := mkdir_error w;
     history_write_error := history_write_error w;
     report_write_error := report_write_error w;
     console := c |}.

Definition set_reports_dir (b : bool) (w : World) : World :=
  {| lighthouse_report := lighthouse_report w;
     performance_log := performance_log w;
     performance_report := performance_report w;
     reports_dir := b;
     build_dir := build_dir w;
     GITHUB_SHA := GITHUB_SHA w;
     GITHUB_REF_NAME := GITHUB_REF_NAME w;
     clock := clock w;
     mkdir_error := mkdir_error w;
     history_write_error := history_write_error w;
     report_write_error := report_write_error w;
     console := console w |}.

Definition set_performance_log (h : option HistoryFile) (w : World) : World :=
  {| lighthouse_report := lighthouse_report w;
     performance_log := h;
     performance_report := performance_report w;
     reports_dir := reports_dir w;
     build_dir := build_dir w;
     GITHUB_SHA := GITHUB_SHA w;
     GITHUB_REF_NAME := GITHUB_REF_NAME w;
     clock := clock w;
     mkdir_error := mkdir_error w;
     history_write_error := history_write_error w;
     report_write_error := report_write_error w;
     console := console w |}.

Definition set_performance_report (h : option Html) (w : World) : World :=
  {| lighthouse_report := lighthouse_report w;
     performance_log := performance_log w;
     performance_report := h;
     reports_dir := reports_dir w;
     build_dir := build_dir w;
     GITHUB_SHA := GITHUB_SHA w;
     GITHUB_REF_NAME := GITHUB_REF_NAME w;
     clock := clock w;
     mkdir_error := mkdir_error w;
     history_write_error := history_write_error w;
     report_write_error := report_write_error w;
     console := console w |}.

Definition console_emit (lv : Level) (l : Line) : M unit :=
  modify (fun w => set_console (console w ++ [(lv, l)]) w).
Definition console_log : Line -> M unit := console_emit Log.
Definition console_warn : Line -> M unit := console_emit Warn.
Definition console_error : Line -> M unit := console_emit Error.

(** [fs.mkdirSync(reportsDir, { recursive: true })] *)
Definition mkdirSync_reports : M unit := fun w =>
  match mkdir_error w with
  | Some e => (Throw e, w)
  | None => (Return tt, set_reports_dir true w)
  end.

(** [process.env.X || 'local']: unset and empty both give ['local']. *)
Definition or_local (v : option string) : string :=
  match v with
  | Some s => if String.eqb s "" then "local" else s
  | None => "local"
  end.

(** ** The script *)

(** [THRESHOLDS] *)
Definition THRESHOLDS : gmap string number :=
  {[ "performance" := Js.of_Z 90;
     "accessibility" := Js.of_Z 90;
     "best-practices" := Js.of_Z 90;
     "seo" := Js.of_Z 90;
     "first-contentful-paint" := Js.of_Z 1800;
     "largest-contentful-paint" := Js.of_Z 2500;
     "first-input-delay" := Js.of_Z 100;
     "cumulative-layout-shift" := Js.of_frac 1 10;
     "speed-index" := Js.of_Z 3000;
     "interactive" := Js.of_Z 3500 ]}.

(** The names every object literal inherits from [Object.prototype]. *)
Definition Object_prototype : list string :=
  [ "constructor"; "__defineGetter__"; "__defineSetter__"; "hasOwnProperty";
    "__lookupGetter__"; "__lookupSetter__"; "isPrototypeOf"; "propertyIsEnumerable";
    "toString"; "valueOf"; "__proto__"; "toLocaleString" ].

(** [table[key]] on an object with the own entries [table]: the own entry
    if there is one, else what the prototype has under that name. *)
Definition property (table : gmap string number) (key : string) : Value :=
  match table !! key with
  | Some x => num x
  | None => if bool_decide (key ∈ Object_prototype) then inherited key else undefined
  end.

(** A looked-up threshold used as an operand: [undefined], a function and
    the prototype object all convert to NaN. *)
Definition ToNumber (v : Value) : number :=
  match v with num x => x | _ => Js.NaN end.

(** A looked-up threshold used as a condition: [undefined] is falsy, a
    function or an object is truthy. *)
Definition ToBoolean (v : Value) : bool :=
  match v with
  | num x => Js.truthy x
  | inherited _ => true
  | undefined => false
  end.

(** [s.includes(sub)] *)
Fixpoint includes (s sub : string) : bool :=
  String.prefix sub s ||
  match s with
  | EmptyString => false
  | String _ s' => includes s' sub
  end.

(** [s.endsWith(suffix)] *)
Definition endsWith (s suffix : string) : bool :=
  String.prefix (String.rev suffix) (String.rev s).

(** [array.slice(-n)]: the last [n] elements, the whole array when it has
    fewer. *)
Definition slice_last {A} (n : nat) (l : list A) : list A :=
  drop (length l - n) l.

(** [o.key.field] on [lhr.categories] or [lhr.audits]: reading a field of
    an absent entry throws a TypeError. *)
Definition field_of (o : gmap string number) (key : string) : M number :=
  match o !! key with
  | Some v => mret v
  | None => throw "Cannot read properties of undefined"
  end.

(** The [scores] object literal. *)
Definition extract_scores (lhr : Lhr) : M Entries :=
  performance ← field_of (categories lhr) "performance";
  accessibility ← field_of (categories lhr) "accessibility";
  best_practices ← field_of (categories lhr) "best-practices";
  seo ← field_of (categories lhr) "seo";
  mret [ ("performance", Js.Math_round (Js.mul performance (Js.of_Z 100)));
         ("accessibility", Js.Math_round (Js.mul accessibility (Js.of_Z 100)));
         ("best-practices", Js.Math_round (Js.mul best_practices (Js.of_Z 100)));
         ("seo", Js.Math_round (Js.mul seo (Js.of_Z 100))) ].

(** The [metrics] object literal. *)
Definition extract_metrics (lhr : Lhr) : M Entries :=
  fcp ← field_of (audits lhr) "first-contentful-paint";
  lcp ← field_of (audits lhr) "largest-contentful-paint";
  fid ← field_of (audits lhr) "max-potential-fid";
  cls ← field_of (audits lhr) "cumulative-layout-shift";
  si ← field_of (audits lhr) "speed-index";
  tti ← field_of (audits lhr) "interactive";
  mret [ ("first-contentful-paint", fcp);
         ("largest-contentful-paint", lcp);
         ("first-input-delay", fid);
         ("cumulative-layout-shift", cls);
         ("speed-index", si);
         ("interactive", tti) ].

Section Evaluation.

(** The loops are stated over any threshold table; the script runs them on
    [THRESHOLDS]. *)
Variable thresholds : gmap string number.

(** Body of [Object.entries(scores).forEach(...)]. *)
Definition check_score (entry : string * number) (st : Locals) : M Locals :=
  let '(category, score) := entry in
  let threshold := property thresholds category in
  let ok := Js.ge score (ToNumber threshold) in
  console_log (ScoreLine ok category score threshold);;
  if Js.lt score (ToNumber threshold) then
    mret {| passed := false;
            results := results st ++
              [ {| type := Score; category := category; value := score;
                   threshold := threshold; status := Failed |} ] |}
  else
    mret {| passed := passed st;
            results := results st ++
              [ {| type := Score; category := category; value := score;
                   threshold := threshold; status := Passed |} ] |}.

(** Body of [Object.entries(metrics).forEach(...)]. *)
Definition check_metric (entry : string * number) (st : Locals) : M Locals :=
  let '(metric, value) := entry in
  let threshold := property thresholds metric in
  if negb (ToBoolean threshold) then mret st
  else
    let ok := Js.le value (ToNumber threshold) in
    let unit' := if includes metric "shift" then "" else "ms" in
    console_log (MetricLine ok metric (Js.Math_round value) unit' threshold);;
    if Js.gt value (ToNumber threshold) then
      mret {| passed := false;
              results := results st ++
                [ {| type := Metric; category := metric; value := Js.Math_round value;
                     threshold := threshold; status := Failed |} ] |}
    else
      mret {| passed := passed st;
              results := results st ++
                [ {| type := Metric; category := metric; value := Js.Math_round value;
                     threshold := threshold; status := Passed |} ] |}.

(** Both loops, from [let passed = true; const results = [];]. *)
Definition check_thresholds (scores metrics : Entries) : M Locals :=
  let st := {| passed := true; results := [] |} in
  console_log ScoresHeader;;
  console_log Rule;;
  st ← forEach check_score scores st;
  console_log VitalsHeader;;
  console_log Rule;;
  forEach check_metric metrics st.

End Evaluation.

(** [savePerformanceHistory(scores, metrics)] *)
Definition savePerformanceHistory (scores metrics : Entries) : M unit :=
  now ← get clock;
  sha ← get GITHUB_SHA;
  ref ← get GITHUB_REF_NAME;
  let historyData :=
    {| timestamp := now; commit := or_local sha; branch := or_local ref;
       scores := scores; metrics := metrics |} in
  try_catch
    (file ← get performance_log;
     history ← match file with
               | None => mret []
               | Some (history_garbled e) => throw e
               | Some (history_json h) => mret h
               end;
     let history := history ++ [historyData] in
     let history := if (50 <? length history)%nat then slice_last 50 history else history in
     dir ← get reports_dir;
     (if negb dir then mkdirSync_reports else mret tt);;
     err ← get history_write_error;
     match err with
     | Some e => throw e
     | None => modify (set_performance_log (Some (history_json history)))
     end;;
     console_log HistoryUpdated)
    (fun message => console_warn (HistoryWarning message)).

Definition maxBundleSize : Z := 250 * 1024.

(** [.sort((a, b) => b.size - a.size)]: stable, largest first. *)
Fixpoint insert_by_size (f : string * Z) (l : list (string * Z)) : list (string * Z) :=
  match l with
  | [] => [f]
  | g :: l' => if g.2 <=? f.2 then f :: l else g :: insert_by_size f l'
  end.

Definition sort_by_size (l : list (string * Z)) : list (string * Z) :=
  foldr insert_by_size [] l.

(** [checkBundleSize()] *)
Definition checkBundleSize : M unit :=
  dir ← get build_dir;
  match dir with
  | None => console_warn BundleDirMissing
  | Some d =>
      console_log BundleHeader;;
      console_log Rule;;
      try_catch
        (listing ← match d with
                   | dist_unreadable e => throw e
                   | dist_files l => mret l
                   end;
         let files :=
           sort_by_size
             (filter (fun f => endsWith f.1 ".js" || endsWith f.1 ".css") listing) in
         let totalSize := foldl (fun sum f => sum + f.2) 0 files in
         forEach (fun f (_ : unit) =>
                    console_log (BundleLine (f.2 <=? maxBundleSize) f.1 f.2)) files tt;;
         console_log Rule;;
         console_log (BundleTotal (totalSize <=? maxBundleSize * 3)
                        totalSize (maxBundleSize * 3)))
        (fun message => console_warn (BundleWarning message))
  end.

(** [generatePerformanceReport(results, scores, metrics)] *)
Definition generatePerformanceReport
    (results : list Result) (scores metrics : Entries) : M unit :=
  now ← get clock;
  let reportHTML :=
    {| generated_on := now; detailed_results := results;
       chart_scores := scores; chart_metrics := metrics |} in
  dir ← get reports_dir;
  (if negb dir then mkdirSync_reports else mret tt);;
  err ← get report_write_error;
  match err with
  | Some e => throw e
  | None => modify (set_performance_report (Some reportHTML))
  end;;
  console_log ReportGenerated.

(** [checkPerformance()] *)
Definition checkPerformance : M unit :=
  console_log Analyzing;;
  try_catch
    (file ← get lighthouse_report;
     (if negb (bool_decide (is_Some file)) then
        console_error ReportNotFound;;
        process_exit 1
      else mret tt);;
     lhr ← match file with
           | Some (report_json lhr) => mret lhr
           | Some (report_garbled e) => throw e
           | None => throw "ENOENT"
           end;
     scores ← extract_scores lhr;
     metrics ← extract_metrics lhr;
     st ← check_thresholds THRESHOLDS scores metrics;
     savePerformanceHistory scores metrics;;
     checkBundleSize;;
     console_log DoubleRule;;
     if passed st then
       console_log AllPassed;;
       generatePerformanceReport (results st) scores metrics;;
       process_exit 0
     else
       console_log ChecksFailed;;
       console_log Suggestions;;
       generatePerformanceReport (results st) scores metrics;;
       process_exit 1)
    (fun message =>
       console_error (AnalysisError message);;
       process_exit 1).

(** ** The two halves of the [try] block *)

(** Lines 37-119 of [checkPerformance]: the [scores] and [metrics] literals
    and the two threshold loops, returning what the rest of the function
    uses. *)
Definition extract_and_check (lhr : Lhr) : M (Entries * Entries * Locals) :=
  scores ← extract_scores lhr;
  metrics ← extract_metrics lhr;
  st ← check_thresholds THRESHOLDS scores metrics;
  mret (scores, metrics, st).

(** Lines 121-144 of [checkPerformance]: history, bundle sizes, verdict,
    report, exit. *)
Definition conclude (scores metrics : Entries) (st : Locals) : M unit :=
  savePerformanceHistory scores metrics;;
  checkBundleSize;;
  console_log DoubleRule;;
  if passed st then
    console_log AllPassed;;
    generatePerformanceReport (results st) scores metrics;;
    process_exit 0
  else
    console_log ChecksFailed;;
    console_log Suggestions;;
    generatePerformanceReport (results st) scores metrics;;
    process_exit 1.

(** The value a computation returned, if it returned. *)
Definition returned {A} (r : Outcome A * World) : option A :=
  match r.1 with
  | Return a => Some a
  | _ => None
  end.

(** The exit status of a finished run. *)
Definition exit_status {A} (r : Outcome A * World) : option Z :=
  match r.1 with
  | Exit c => Some c
  | _ => None
  end.

(** ** Closed forms of the two loops *)

Section ClosedForms.

Variable thresholds : gmap string number.

Definition score_failed (e : string * number) : bool :=
  Js.lt e.2 (ToNumber (property thresholds e.1)).

Definition score_result (e : string * number) : Result :=
  {| type := Score; category := e.1; value := e.2;
     threshold := property thresholds e.1;
     status := if score_failed e then Failed else Passed |}.

Definition score_line (e : string * number) : Level * Line :=
  (Log, ScoreLine (Js.ge e.2 (ToNumber (property thresholds e.1))) e.1 e.2 (property thresholds e.1)).

(** The metrics that get past [if (!threshold) return;]. *)
Definition metric_checked (e : string * number) : bool :=
  ToBoolean (property thresholds e.1).

Definition metric_failed (e : string * number) : bool :=
  Js.gt e.2 (ToNumber (property thresholds e.1)).

Definition metric_result (e : string * number) : Result :=
  {| type := Metric; category := e.1; value := Js.Math_round e.2;
     threshold := property thresholds e.1;
     status := if metric_failed e then Failed else Passed |}.

Definition metric_line (e : string * number) : Level * Line :=
  (Log, MetricLine (Js.le e.2 (ToNumber (property thresholds e.1))) e.1 (Js.Math_round e.2)
          (if includes e.1 "shift" then "" else "ms") (property thresholds e.1)).

End ClosedForms.

(** The category keys of [scores] and, for each key of [metrics], the audit
    it is read from. *)
Definition score_categories : list string :=
  ["performance"; "accessibility"; "best-practices"; "seo"].

Definition metric_audits : list (string * string) :=
  [ ("first-contentful-paint", "first-contentful-paint");
    ("largest-contentful-paint", "largest-contentful-paint");
    ("first-input-delay", "max-potential-fid");
    ("cumulative-layout-shift", "cumulative-layout-shift");
    ("speed-index", "speed-index");
    ("interactive", "interactive") ].

(** The report can be written: the directory is there or can be made, and
    the write itself does not fail. *)
Definition report_writable (w : World) : bool :=
  (reports_dir w || bool_decide (mkdir_error w = None))
  && bool_decide (report_write_error w = None).

(** The locals after both loops. *)
Definition verdict (thresholds : gmap string number) (scores metrics : Entries) : Locals :=
  let checked := List.filter (metric_checked thresholds) metrics in
  {| passed := forallb (fun e => negb (score_failed thresholds e)) scores
               && forallb (fun e => negb (metric_failed thresholds e)) checked;
     results := map (score_result thresholds) scores
                ++ map (metric_result thresholds) checked |}.

(** What the two loops print. *)
Definition verdict_lines (thresholds : gmap string number) (scores metrics : Entries)
    : list (Level * Line) :=
  [(Log, ScoresHeader); (Log, Rule)] ++ map (score_line thresholds) scores
  ++ [(Log, VitalsHeader); (Log, Rule)]
  ++ map (metric_line thresholds) (List.filter (metric_checked thresholds) metrics).

(** The [scores] and [metrics] literals when no property access throws. *)
Definition scores_of (lhr : Lhr) : option Entries :=
  performance ← categories lhr !! "performance";
  accessibility ← categories lhr !! "accessibility";
  best_practices ← categories lhr !! "best-practices";
  seo ← categories lhr !! "seo";
  Some [ ("performance", Js.Math_round (Js.mul performance (Js.of_Z 100)));
         ("accessibility", Js.Math_round (Js.mul accessibility (Js.of_Z 100)));
         ("best-practices", Js.Math_round (Js.mul best_practices (Js.of_Z 100)));
         ("seo", Js.Math_round (Js.mul seo (Js.of_Z 100))) ].

Definition metrics_of (lhr : Lhr) : option Entries :=
  fcp ← audits lhr !! "first-contentful-paint";
  lcp ← audits lhr !! "largest-contentful-paint";
  fid ← audits lhr !! "max-potential-fid";
  cls ← audits lhr !! "cumulative-layout-shift";
  si ← audits lhr !! "speed-index";
  tti ← audits lhr !! "interactive";
  Some [ ("first-contentful-paint", fcp);
         ("largest-contentful-paint", lcp);
         ("first-input-delay", fid);
         ("cumulative-layout-shift", cls);
         ("speed-index", si);
         ("interactive", tti) ].

(** [history.push(historyData)] followed by the 50-entry cut. *)
Definition append_capped (history : list HistoryData) (historyData : HistoryData)
    : list HistoryData :=
  let history := history ++ [historyData] in
  if (50 <? length history)%nat then slice_last 50 history else history.

(** The entry a run appends. *)
Definition history_entry (w : World) (scores metrics : Entries) : HistoryData :=
  {| timestamp := clock w; commit := or_local (GITHUB_SHA w);
     branch := or_local (GITHUB_REF_NAME w);
     scores := scores; metrics := metrics |}.

(** What the report file holds when the run is over, given the locals. *)
Definition final_report (w : World) (scores metrics : Entries) (st : Locals) : option Html :=
  if report_writable w then
    Some {| generated_on := clock w; detailed_results := results st;
            chart_scores := scores; chart_metrics := metrics |}
  else performance_report w.

Definition set_history_write_error (e : option string) (w : World) : World :=
  {| lighthouse_report := lighthouse_report w;
     performance_log := performance_log w;
     performance_report := performance_report w;
     reports_dir := reports_dir w;
     build_dir := build_dir w;
     GITHUB_SHA := GITHUB_SHA w;
     GITHUB_REF_NAME := GITHUB_REF_NAME w;
     clock := clock w;
     mkdir_error := mkdir_error w;
     history_write_error := e;
     report_write_error := report_write_error w;
     console := console w |}.

(** The exit status and the report file of a whole run, read off the
    world it starts in. *)
Definition expected_exit (w : World) : Z :=
  match lighthouse_report w with
  | Some (report_json lhr) =>
      match scores_of lhr, metrics_of lhr with
      | Some scores, Some metrics =>
          if passed (verdict THRESHOLDS scores metrics) && report_writable w then 0 else 1
      | _, _ => 1
      end
  | _ => 1
  end.

Definition expected_report (w : World) : option Html :=
  match lighthouse_report w with
  | Some (report_json lhr) =>
      match scores_of lhr, metrics_of lhr with
      | Some scores, Some metrics =>
          final_report w scores metrics (verdict THRESHOLDS scores metrics)
      | _, _ => performance_report w
      end
  | _ => performance_report w
  end.

(** ** Sample inputs *)

(** A report in which everything passes comfortably except, possibly, the
    performance score and the first contentful paint, which are given. *)
Definition sample_lhr (performance fcp : number) : Lhr :=
  {| categories :=
       {[ "performance" := performance;
          "accessibility" := Js.of_Z 1;
          "best-practices" := Js.of_Z 1;
          "seo" := Js.of_frac 95 100 ]};
     audits :=
       {[ "first-contentful-paint" := fcp;
          "largest-contentful-paint" := Js.of_Z 2000;
          "max-potential-fid" := Js.of_Z 100;
          "cumulative-layout-shift" := Js.of_frac 5 100;
          "speed-index" := Js.of_Z 3000;
          "interactive" := Js.of_Z 3500 ]} |}.

Definition sample_world (file : option ReportFile) (log : option HistoryFile)
    (report_fault : option string) : World :=
  {| lighthouse_report := file;
     performance_log := log;
     performance_report := None;
     reports_dir := true;
     build_dir := None;
     GITHUB_SHA := None;
     GITHUB_REF_NAME := Some "main";
     clock := "2024-05-01T12:00:00.000Z";
     mkdir_error := None;
     history_write_error := None;
     report_write_error := report_fault;
     console := [] |}.

(** A report that sits on two boundaries: performance 0.895 and first
    contentful paint 1800; the world it is found in; and a full history. *)
Definition sample_report : Lhr :=
  sample_lhr (Js.of_frac 895 1000) (Js.of_Z 1800).

Definition sample_start : World :=
  sample_world (Some (report_json sample_report)) None None.

Definition sample_scores : Entries :=
  [ ("performance", Js.of_Z 90); ("accessibility", Js.of_Z 100);
    ("best-practices", Js.of_Z 100); ("seo", Js.of_Z 95) ].

Definition sample_metrics : Entries :=
  [ ("first-contentful-paint", Js.of_Z 1800);
    ("largest-contentful-paint", Js.of_Z 2000);
    ("first-input-delay", Js.of_Z 100);
    ("cumulative-layout-shift", Js.of_frac 5 100);
    ("speed-index", Js.of_Z 3000);
    ("interactive", Js.of_Z 3500) ].

Definition sample_locals : Locals :=
  verdict THRESHOLDS sample_scores sample_metrics.

Definition old_entry (n : nat) : HistoryData :=
  {| timestamp := "2024-04-01T00:00:00.000Z"; commit := pretty n; branch := "main";
     scores := sample_scores; metrics := sample_metrics |}.

Definition full_history : list HistoryData := map old_entry (seq 0 50).

Definition sample_full : World :=
  sample_world (Some (report_json sample_report)) (Some (history_json full_history)) None.

(** The history file respects the cap (a file that is absent or does not
    parse holds no log). *)
Definition within_cap (file : option HistoryFile) : Prop :=
  match file with
  | Some (history_json history) => (length history <= 50)%nat
  | _ => True
  end.

(** ** The rest of the run *)

Definition set_build_dir (d : option BuildDir) (w : World) : World :=
  {| lighthouse_report := lighthouse_report w;
     performance_log := performance_log w;
     performance_report := performance_report w;
     reports_dir := reports_dir w;
     build_dir := d;
     GITHUB_SHA := GITHUB_SHA w;
     GITHUB_REF_NAME := GITHUB_REF_NAME w;
     clock := clock w;
     mkdir_error := mkdir_error w;
     history_write_error := history_write_error w;
     report_write_error := report_write_error w;
     console := console w |}.

(** A report with one more (or one replaced) audit or category. *)
Definition with_audit (key : string) (v : number) (lhr : Lhr) : Lhr :=
  {| categories := categories lhr; audits := <[key := v]> (audits lhr) |}.

Definition with_category (key : string) (v : number) (lhr : Lhr) : Lhr :=
  {| categories := <[key := v]> (categories lhr); audits := audits lhr |}.

(** A category or an audit that the script reads is not in the report. *)
Definition lacks_field (lhr : Lhr) : Prop :=
  (exists cat, In cat score_categories /\ categories lhr !! cat = None)
  \/ (exists name audit, In (name, audit) metric_audits /\ audits lhr !! audit = None).

(** The history file of a whole run, read off the world it starts in. *)
Definition expected_log (w : World) : option HistoryFile :=
  match lighthouse_report w with
  | Some (report_json lhr) =>
      match scores_of lhr, metrics_of lhr with
      | Some scores, Some metrics =>
          performance_log (savePerformanceHistory scores metrics w).2
      | _, _ => performance_log w
      end
  | _ => performance_log w
  end.

(** The files the bundle check prints: [.filter(...)], and the line of
    [files.forEach(...)] for one of them. *)
Definition is_bundle (f : string * Z) : bool :=
  endsWith f.1 ".js" || endsWith f.1 ".css".

Definition bundle_line (f : string * Z) : Level * Line :=
  (Log, BundleLine (f.2 <=? maxBundleSize) f.1 f.2).

(** The order [.sort((a, b) => b.size - a.size)] leaves two neighbours in. *)
Definition larger_first (f g : string * Z) : Prop := g.2 <= f.2.

(** Worlds for the examples: a report without its speed-index audit, a
    build directory, a report whose performance score fails. *)
Definition sample_dist : list (string * Z) :=
  [("app.js", 120000); ("vendor.js", 300000); ("logo.png", 50000); ("main.css", 300000)].

Definition sample_failing : World :=
  sample_world (Some (report_json (sample_lhr (Js.of_frac 5 10) (Js.of_Z 1800))))
    (Some (history_json full_history)) (Some "EACCES").

(** The numbers that [JSON.stringify] writes and [JSON.parse] reads back
    unchanged: the finite ones other than negative zero.  [NaN] and the
    infinities are written as [null], negative zero as [0]. *)
Definition JSON_exact (x : number) : bool :=
  match x with
  | S754_finite _ _ _ => true
  | S754_zero negative => negb negative
  | _ => false
  end.

(** [e] is an entry of the history file as written for [historyData] built
    from [scores] and [metrics] in [w] (source lines 198-204 and 227): the
    three strings as they are, the two objects as far as serialisation
    keeps them. *)
Definition written_entry (w : World) (s m : Entries) (e : HistoryData) : Prop :=
  timestamp e = clock w
  /\ commit e = or_local (GITHUB_SHA w)
  /\ branch e = or_local (GITHUB_REF_NAME w)
  /\ (Forall (fun p => JSON_exact p.2 = true) s -> scores e = s)
  /\ (Forall (fun p => JSON_exact p.2 = true) m -> metrics e = m).

(** * Properties *)

(** Unfolds the operations of the monad, to run a computation on a world
    given field by field. *)
Ltac unfold_M :=
  unfold try_catch, mbind, M_bind, get, modify, mkdirSync_reports,
    console_log, console_warn, console_error, console_emit, throw, process_exit.


(** ** Numbers *)

Lemma compare_defined (x y : number) :
  Js.is_nan x = false -> Js.is_nan y = false ->
  exists c, SFcompare x y = Some c.
Proof.
  destruct x as [sx|sx| |sx mx ex], y as [sy|sy| |sy my ey];
    simpl; intros Hx Hy; try discriminate; eauto.
Qed.

Lemma ge_negb_lt (x y : number) :
  Js.is_nan x = false -> Js.is_nan y = false ->
  Js.ge x y = negb (Js.lt x y).
Proof.
  intros Hx Hy. destruct (compare_defined x y Hx Hy) as [c Hc].
  unfold Js.ge, Js.lt, Js.IsLessThan. rewrite Hc. now destruct c.
Qed.

Lemma le_negb_gt (x y : number) :
  Js.is_nan x = false -> Js.is_nan y = false ->
  Js.le x y = negb (Js.gt x y).
Proof.
  intros Hx Hy. destruct (compare_defined y x Hy Hx) as [c Hc].
  unfold Js.le, Js.gt, Js.IsLessThan. rewrite Hc. now destruct c.
Qed.

Lemma compare_refl (x : number) :
  Js.is_nan x = false -> SFcompare x x = Some Eq.
Proof.
  destruct x as [s|s| |s m e]; simpl; intros H; try discriminate.
  - reflexivity.
  - now destruct s.
  - rewrite Z.compare_refl, Pos.compare_cont_refl. now destruct s.
Qed.

Lemma lt_irrefl (x : number) : Js.lt x x = false.
Proof.
  unfold Js.lt, Js.IsLessThan. destruct (Js.is_nan x) eqn:Hx.
  - destruct x; try discriminate. reflexivity.
  - now rewrite compare_refl.
Qed.

Lemma gt_irrefl (x : number) : Js.gt x x = false.
Proof. exact (lt_irrefl x). Qed.

(** Shifting a non-negative mantissa keeps it non-negative, so rounding
    never falls into the NaN branch. *)
Lemma shr_1_nonneg (mrs : shr_record) :
  0 <= shr_m mrs -> 0 <= shr_m (shr_1 mrs).
Proof.
  destruct mrs as [m r s]; simpl.
  destruct m as [|p|p]; [easy| |lia].
  destruct p; simpl; lia.
Qed.

Lemma iter_shr_1_nonneg (p : positive) (mrs : shr_record) :
  0 <= shr_m mrs -> 0 <= shr_m (SpecFloat.iter_pos shr_1 p mrs).
Proof.
  revert mrs. induction p as [p IH|p IH|]; intros mrs H; simpl.
  - apply IH, IH, shr_1_nonneg, H.
  - apply IH, IH, H.
  - apply shr_1_nonneg, H.
Qed.

Lemma shr_fexp_nonneg (m e : Z) (l : location) :
  0 <= m -> 0 <= shr_m (shr_fexp Js.prec Js.emax m e l).1.
Proof.
  intros H. unfold shr_fexp, shr.
  assert (H0 : 0 <= shr_m (shr_record_of_loc m l)).
  { destruct l as [|[]]; exact H. }
  destruct (fexp Js.prec Js.emax (Zdigits2 m + e) - e); simpl; trivial.
  now apply iter_shr_1_nonneg.
Qed.

Lemma round_nearest_even_nonneg (m : Z) (l : location) :
  0 <= m -> 0 <= round_nearest_even m l.
Proof.
  intros H. destruct l as [|[]]; simpl; try lia.
  destruct (Z.even m); lia.
Qed.

Lemma binary_round_aux_not_nan (sx : bool) (mx ex : Z) (lx : location) :
  0 <= mx -> Js.is_nan (binary_round_aux Js.prec Js.emax sx mx ex lx) = false.
Proof.
  intros H. unfold binary_round_aux.
  pose proof (shr_fexp_nonneg mx ex lx H) as H1.
  destruct (shr_fexp Js.prec Js.emax mx ex lx) as [mrs' e']; simpl in H1.
  pose proof (round_nearest_even_nonneg (shr_m mrs') (loc_of_shr_record mrs') H1) as H2.
  pose proof (shr_fexp_nonneg _ e' loc_Exact H2) as H3.
  destruct (shr_fexp Js.prec Js.emax _ e' loc_Exact) as [mrs'' e'']; simpl in H3.
  destruct (shr_m mrs'') as [|p|p]; [reflexivity| |lia].
  now destruct (e'' <=? Js.emax - Js.prec).
Qed.

Lemma binary_normalize_not_nan (n e : Z) (s : bool) :
  Js.is_nan (binary_normalize Js.prec Js.emax n e s) = false.
Proof.
  destruct n as [|p|p]; simpl; [reflexivity| |];
    unfold binary_round;
    destruct (shl_align _ _ _) as [mz ez];
    now apply binary_round_aux_not_nan.
Qed.

Lemma Math_round_not_nan (x : number) :
  Js.is_nan x = false -> Js.is_nan (Js.Math_round x) = false.
Proof.
  destruct x as [s|s| |s m e]; simpl; trivial.
  intros _. destruct (0 <=? e); [reflexivity|].
  apply binary_normalize_not_nan.
Qed.

(** A number times 100 is a number: only [0 * Infinity] and NaN operands
    give NaN. *)
Lemma mul_100_not_nan (x : number) :
  Js.is_nan x = false -> Js.is_nan (Js.mul x (Js.of_Z 100)) = false.
Proof.
  destruct x as [s|s| |s m e]; simpl; intros H; try discriminate; trivial.
  change (Js.of_Z 100) with (S754_finite false 7036874417766400 (-46)).
  unfold Js.mul, SFmul. now apply binary_round_aux_not_nan.
Qed.

Lemma percentage_not_nan (x : number) :
  Js.is_nan x = false ->
  Js.is_nan (Js.Math_round (Js.mul x (Js.of_Z 100))) = false.
Proof. intros H. now apply Math_round_not_nan, mul_100_not_nan. Qed.

(** ** Running the monad *)

#[global] Arguments Js.lt : simpl never.
#[global] Arguments Js.gt : simpl never.
#[global] Arguments Js.le : simpl never.
#[global] Arguments Js.ge : simpl never.
#[global] Arguments Js.mul : simpl never.
#[global] Arguments Js.of_Z : simpl never.
#[global] Arguments Js.Math_round : simpl never.

(** Reading a name the table has as an own entry, and one that neither the
    table nor the prototype has. *)
Lemma property_own (T : gmap string number) (key : string) (x : number) :
  T !! key = Some x -> property T key = num x.
Proof. intros H. unfold property. now rewrite H. Qed.

Lemma property_undefined (T : gmap string number) (key : string) :
  T !! key = None -> key ∉ Object_prototype -> property T key = undefined.
Proof.
  intros H Hk. unfold property. rewrite H.
  now rewrite bool_decide_eq_false_2.
Qed.

Lemma property_inherited (T : gmap string number) (key : string) :
  T !! key = None -> key ∈ Object_prototype -> property T key = inherited key.
Proof.
  intros H Hk. unfold property. rewrite H.
  now rewrite bool_decide_eq_true_2.
Qed.

Lemma set_console_same (w : World) : set_console (console w) w = w.
Proof. now destruct w. Qed.

Lemma locals_eta (st : Locals) :
  {| passed := passed st; results := results st |} = st.
Proof. now destruct st. Qed.

Lemma console_log_run (l : Line) (w : World) :
  console_log l w = (Return tt, set_console (console w ++ [(Log, l)]) w).
Proof. reflexivity. Qed.

Lemma check_score_run T (e : string * number) (st : Locals) (w : World) :
  check_score T e st w =
  (Return {| passed := passed st && negb (score_failed T e);
             results := results st ++ [score_result T e] |},
   set_console (console w ++ [score_line T e]) w).
Proof.
  destruct e as [c x].
  unfold check_score, score_result, score_line, score_failed, mbind, M_bind; simpl.
  destruct (Js.lt x _); simpl; now rewrite ?andb_false_r, ?andb_true_r.
Qed.

Lemma check_metric_run T (e : string * number) (st : Locals) (w : World) :
  check_metric T e st w =
  if metric_checked T e then
    (Return {| passed := passed st && negb (metric_failed T e);
               results := results st ++ [metric_result T e] |},
     set_console (console w ++ [metric_line T e]) w)
  else (Return st, w).
Proof.
  destruct e as [c x].
  unfold check_metric, metric_result, metric_line, metric_checked, metric_failed,
    mbind, M_bind; simpl.
  destruct (ToBoolean (property T c)); simpl; [|reflexivity].
  destruct (Js.gt x _); simpl; now rewrite ?andb_false_r, ?andb_true_r.
Qed.

Lemma forEach_check_score T (scores : Entries) (st : Locals) (w : World) :
  forEach (check_score T) scores st w =
  (Return {| passed := passed st && forallb (fun e => negb (score_failed T e)) scores;
             results := results st ++ map (score_result T) scores |},
   set_console (console w ++ map (score_line T) scores) w).
Proof.
  revert st w. induction scores as [|e l IH]; intros st w.
  - simpl. now rewrite andb_true_r, !app_nil_r, set_console_same, locals_eta.
  - change (forEach (check_score T) (e :: l) st w)
      with (match check_score T e st w with
            | (Return a, w') => forEach (check_score T) l a w'
            | (Throw m, w') => (Throw m, w')
            | (Exit c, w') => (Exit c, w')
            end).
    rewrite check_score_run, IH. simpl.
    now rewrite <- andb_assoc, <- !app_assoc.
Qed.

Lemma forEach_check_metric T (metrics : Entries) (st : Locals) (w : World) :
  forEach (check_metric T) metrics st w =
  (Return {| passed := passed st
                       && forallb (fun e => negb (metric_failed T e))
                            (List.filter (metric_checked T) metrics);
             results := results st
                        ++ map (metric_result T) (List.filter (metric_checked T) metrics) |},
   set_console (console w ++ map (metric_line T) (List.filter (metric_checked T) metrics)) w).
Proof.
  revert st w. induction metrics as [|e l IH]; intros st w.
  - simpl. now rewrite andb_true_r, !app_nil_r, set_console_same, locals_eta.
  - change (forEach (check_metric T) (e :: l) st w)
      with (match check_metric T e st w with
            | (Return a, w') => forEach (check_metric T) l a w'
            | (Throw m, w') => (Throw m, w')
            | (Exit c, w') => (Exit c, w')
            end).
    rewrite check_metric_run. simpl List.filter.
    destruct (metric_checked T e).
    + rewrite IH. simpl. now rewrite <- andb_assoc, <- !app_assoc.
    + apply IH.
Qed.

Lemma check_thresholds_run T (scores metrics : Entries) (w : World) :
  check_thresholds T scores metrics w =
  (Return (verdict T scores metrics),
   set_console (console w ++ verdict_lines T scores metrics) w).
Proof.
  unfold check_thresholds, mbind, M_bind.
  rewrite !console_log_run, forEach_check_score, !console_log_run, forEach_check_metric.
  unfold verdict, verdict_lines. simpl.
  now rewrite <- !app_assoc.
Qed.

Lemma extract_scores_run (lhr : Lhr) (w : World) :
  extract_scores lhr w =
  (match scores_of lhr with
   | Some scores => Return scores
   | None => Throw "Cannot read properties of undefined"
   end, w).
Proof.
  unfold extract_scores, scores_of, field_of, mbind, M_bind, option_bind, throw.
  destruct (categories lhr !! "performance"); [|reflexivity].
  destruct (categories lhr !! "accessibility"); [|reflexivity].
  destruct (categories lhr !! "best-practices"); [|reflexivity].
  destruct (categories lhr !! "seo"); reflexivity.
Qed.

Lemma extract_metrics_run (lhr : Lhr) (w : World) :
  extract_metrics lhr w =
  (match metrics_of lhr with
   | Some metrics => Return metrics
   | None => Throw "Cannot read properties of undefined"
   end, w).
Proof.
  unfold extract_metrics, metrics_of, field_of, mbind, M_bind, option_bind, throw.
  destruct (audits lhr !! "first-contentful-paint"); [|reflexivity].
  destruct (audits lhr !! "largest-contentful-paint"); [|reflexivity].
  destruct (audits lhr !! "max-potential-fid"); [|reflexivity].
  destruct (audits lhr !! "cumulative-layout-shift"); [|reflexivity].
  destruct (audits lhr !! "speed-index"); [|reflexivity].
  destruct (audits lhr !! "interactive"); reflexivity.
Qed.

(** Extraction and the loops, in closed form: they return exactly when no
    property access throws, and touch nothing but the console. *)
Lemma extract_and_check_run (lhr : Lhr) (w : World) :
  extract_and_check lhr w =
  match scores_of lhr, metrics_of lhr with
  | Some scores, Some metrics =>
      (Return (scores, metrics, verdict THRESHOLDS scores metrics),
       set_console (console w ++ verdict_lines THRESHOLDS scores metrics) w)
  | _, _ => (Throw "Cannot read properties of undefined", w)
  end.
Proof.
  unfold extract_and_check, mbind at 1, M_bind at 1. rewrite extract_scores_run.
  destruct (scores_of lhr) as [scores|]; [|now destruct (metrics_of lhr)].
  unfold mbind at 1, M_bind at 1. rewrite extract_metrics_run.
  destruct (metrics_of lhr) as [metrics|]; [|reflexivity].
  unfold mbind, M_bind. now rewrite check_thresholds_run.
Qed.

Lemma extract_and_check_inv (lhr : Lhr) (w : World) scores metrics st :
  returned (extract_and_check lhr w) = Some (scores, metrics, st) ->
  scores_of lhr = Some scores /\ metrics_of lhr = Some metrics
  /\ st = verdict THRESHOLDS scores metrics.
Proof.
  rewrite extract_and_check_run. unfold returned.
  destruct (scores_of lhr), (metrics_of lhr); simpl; intros H; inversion H; auto.
Qed.

(** ** History *)

Lemma savePerformanceHistory_run (scores metrics : Entries) (w : World) :
  exists c h d,
    savePerformanceHistory scores metrics w
    = (Return tt, set_console c (set_performance_log h (set_reports_dir d w)))
    /\ (d = reports_dir w \/ (d = true /\ mkdir_error w = None))
    /\ (c = console w ++ [(Log, HistoryUpdated)]
        \/ exists e, c = console w ++ [(Warn, HistoryWarning e)]
                     /\ h = performance_log w).
Proof.
  destruct w as [lr pl pr rd bd sha ref clk mke hwe rwe con].
  unfold savePerformanceHistory; unfold_M; simpl.
  destruct pl as [[e|h]|]; simpl;
    [ | destruct rd; simpl; [|destruct mke as [e|]; simpl]; destruct hwe as [e'|]; simpl
      | destruct rd; simpl; [|destruct mke as [e|]; simpl]; destruct hwe as [e'|]; simpl ];
    eexists _, _, _;
    unfold set_console, set_performance_log, set_reports_dir; simpl;
    (split; [reflexivity|]);
    (split; [first [left; reflexivity | right; split; reflexivity]|]);
    first [left; reflexivity | right; eexists; split; reflexivity].
Qed.

(** The history file after a save in which nothing throws. *)
Lemma savePerformanceHistory_saved (scores metrics : Entries) (w : World) prior :
  performance_log w = None /\ prior = [] \/ performance_log w = Some (history_json prior) ->
  reports_dir w = true \/ mkdir_error w = None ->
  history_write_error w = None ->
  performance_log (savePerformanceHistory scores metrics w).2
  = Some (history_json (append_capped prior (history_entry w scores metrics))).
Proof.
  destruct w as [lr pl pr rd bd sha ref clk mke hwe rwe con]; simpl.
  intros Hpl Hdir ->.
  unfold savePerformanceHistory; unfold_M; simpl.
  destruct Hpl as [ [-> ->] | -> ]; simpl;
    (destruct rd; simpl; [reflexivity|]);
    (destruct Hdir as [ | -> ]; [discriminate|reflexivity]).
Qed.

(** ** Bundle sizes *)

Lemma forEach_log {A} (f : A -> Line) (l : list A) (w : World) :
  forEach (fun a (_ : unit) => console_log (f a)) l tt w
  = (Return tt, set_console (console w ++ map (fun a => (Log, f a)) l) w).
Proof.
  revert w. induction l as [|a l IH]; intros w; simpl.
  - now rewrite app_nil_r, set_console_same.
  - unfold mbind, M_bind. rewrite console_log_run, IH. simpl.
    now rewrite <- app_assoc.
Qed.

(** The bundle check always returns and only prints. *)
Lemma checkBundleSize_run (w : World) :
  exists c, checkBundleSize w = (Return tt, set_console (console w ++ c) w).
Proof.
  unfold checkBundleSize, mbind at 1, M_bind at 1, get.
  destruct (build_dir w) as [[e|files]|].
  - exists [(Log, BundleHeader); (Log, Rule); (Warn, BundleWarning e)].
    unfold try_catch, mbind, M_bind. rewrite !console_log_run. simpl.
    unfold console_warn, console_emit, modify. simpl.
    now rewrite <- !app_assoc.
  - unfold try_catch, mbind, M_bind. rewrite !console_log_run.
    simpl. rewrite forEach_log. simpl. eexists.
    rewrite <- !app_assoc. reflexivity.
  - eexists. reflexivity.
Qed.

(** ** The HTML report *)

Lemma generatePerformanceReport_ok rs (scores metrics : Entries) (w : World) :
  report_writable w = true ->
  generatePerformanceReport rs scores metrics w
  = (Return tt,
     set_console (console w ++ [(Log, ReportGenerated)])
       (set_performance_report
          (Some {| generated_on := clock w; detailed_results := rs;
                   chart_scores := scores; chart_metrics := metrics |})
          (set_reports_dir true w))).
Proof.
  destruct w as [lr pl pr rd bd sha ref clk mke hwe rwe con].
  unfold report_writable; simpl. intros H.
  apply andb_true_iff in H as [Hd Hw].
  apply bool_decide_eq_true in Hw as ->.
  unfold generatePerformanceReport; unfold_M; simpl.
  destruct rd; simpl; [reflexivity|].
  simpl in Hd. apply bool_decide_eq_true in Hd as ->. reflexivity.
Qed.

Lemma generatePerformanceReport_throws rs (scores metrics : Entries) (w : World) :
  report_writable w = false ->
  exists e d, generatePerformanceReport rs scores metrics w = (Throw e, set_reports_dir d w).
Proof.
  destruct w as [lr pl pr rd bd sha ref clk mke hwe rwe con].
  unfold report_writable; simpl. intros H.
  unfold generatePerformanceReport; unfold_M; simpl.
  destruct rd; simpl.
  - destruct rwe as [e|]; simpl; [|discriminate]. eexists _, _. reflexivity.
  - destruct mke as [e|]; simpl; [eexists _, _; reflexivity|].
    destruct rwe as [e|]; simpl; [|discriminate]. eexists _, _. reflexivity.
Qed.

(** ** The whole run *)

Lemma run_bind_Return {A B} (m : M A) (k : A -> M B) (w w' : World) (a : A) :
  m w = (Return a, w') -> (m ≫= k) w = k a w'.
Proof. intros H. unfold mbind, M_bind. now rewrite H. Qed.

Lemma run_bind_Throw {A B} (m : M A) (k : A -> M B) (w w' : World) (e : string) :
  m w = (Throw e, w') -> (m ≫= k) w = (Throw e, w').
Proof. intros H. unfold mbind, M_bind. now rewrite H. Qed.

(** Saving the history does not change whether the report can be written. *)
Lemma report_writable_after_save (w : World) c h d :
  d = reports_dir w \/ (d = true /\ mkdir_error w = None) ->
  report_writable (set_console c (set_performance_log h (set_reports_dir d w)))
  = report_writable w.
Proof.
  unfold report_writable; simpl. intros [->|[-> ->]]; [reflexivity|].
  simpl. now rewrite orb_true_r.
Qed.

(** Once the loops are done the run ends in a throw exactly when the report
    cannot be written, and otherwise exits with the verdict.  The first
    thing it prints is the outcome of the history save. *)
Lemma conclude_run (scores metrics : Entries) (st : Locals) (w : World) :
  exists r w',
    conclude scores metrics st w = (r, w')
    /\ (report_writable w = true -> r = Exit (if passed st then 0 else 1))
    /\ (report_writable w = false ->
        exists e w3 w3',
          r = Throw e
          /\ generatePerformanceReport (results st) scores metrics w3 = (Throw e, w3'))
    /\ performance_report w' = final_report w scores metrics st
    /\ lighthouse_report w' = lighthouse_report w
    /\ (passed st = true -> In (Log, AllPassed) (console w'))
    /\ exists ev l, console w' = console w ++ ev :: l
         /\ (ev = (Log, HistoryUpdated) \/ exists e, ev = (Warn, HistoryWarning e)).
Proof.
  destruct (savePerformanceHistory_run scores metrics w) as (c & h & d & Hs & Hd & Hc).
  pose proof (report_writable_after_save w c h d Hd) as Hw.
  set (w1 := set_console c (set_performance_log h (set_reports_dir d w))) in *.
  destruct (checkBundleSize_run w1) as [c2 Hb].
  set (w2 := set_console (console w1 ++ c2) w1) in *.
  assert (Hev : exists ev, c = console w ++ [ev]
            /\ (ev = (Log, HistoryUpdated) \/ exists e, ev = (Warn, HistoryWarning e))).
  { destruct Hc as [->|[e [-> _]]]; eexists; split; eauto. }
  destruct Hev as (ev & -> & Hev).
  unfold conclude.
  rewrite (run_bind_Return _ _ _ _ _ Hs), (run_bind_Return _ _ _ _ _ Hb).
  rewrite (run_bind_Return _ _ _ _ _ (console_log_run DoubleRule w2)).
  unfold final_report.
  destruct (report_writable w) eqn:Hrw; simpl in Hw.
  - destruct (passed st);
      rewrite ?(run_bind_Return _ _ _ _ _ (console_log_run _ _));
      erewrite run_bind_Return by (apply generatePerformanceReport_ok; exact Hw);
      (eexists _, _; split; [reflexivity|]);
      (split; [reflexivity|]); (split; [discriminate|]);
      (split; [reflexivity|]); (split; [reflexivity|]);
      (split; [intros Hp; first [discriminate Hp | simpl; rewrite !in_app_iff; simpl; tauto]|]);
      exists ev; eexists; (split; [|exact Hev]);
      simpl; rewrite <- !app_assoc; reflexivity.
  - destruct (passed st);
      rewrite ?(run_bind_Return _ _ _ _ _ (console_log_run _ _));
      match goal with
      | |- context [(generatePerformanceReport ?rs ?s ?m ≫= _) ?w0] =>
          destruct (generatePerformanceReport_throws rs s m w0 Hw) as (e & d' & Hg)
      end;
      rewrite (run_bind_Throw _ _ _ _ _ Hg);
      (eexists _, _; split; [reflexivity|]);
      (split; [discriminate|]); (split; [intros _; eexists _, _, _; split; [reflexivity|exact Hg]|]);
      (split; [reflexivity|]); (split; [reflexivity|]);
      (split; [intros Hp; first [discriminate Hp | simpl; rewrite !in_app_iff; simpl; tauto]|]);
      exists ev; eexists; (split; [|exact Hev]);
      simpl; rewrite <- !app_assoc; reflexivity.
Qed.

Lemma checkPerformance_missing (w : World) :
  lighthouse_report w = None ->
  checkPerformance w
  = (Exit 1, set_console (console w ++ [(Log, Analyzing); (Error, ReportNotFound)]) w).
Proof.
  intros H.
  unfold checkPerformance; unfold_M; simpl.
  rewrite H; simpl. now rewrite <- app_assoc.
Qed.

Lemma checkPerformance_garbled (w : World) (e : string) :
  lighthouse_report w = Some (report_garbled e) ->
  checkPerformance w
  = (Exit 1, set_console (console w ++ [(Log, Analyzing); (Error, AnalysisError e)]) w).
Proof.
  intros H.
  unfold checkPerformance; unfold_M; simpl.
  rewrite H; simpl. now rewrite <- app_assoc.
Qed.

(** With a report that parses, the run is the first half of the [try]
    block followed by the second, under the blanket handler. *)
Lemma checkPerformance_parsed (w : World) (lhr : Lhr) :
  lighthouse_report w = Some (report_json lhr) ->
  checkPerformance w
  = try_catch
      ('(scores, metrics, st) ← extract_and_check lhr; conclude scores metrics st)
      (fun message => console_error (AnalysisError message);; process_exit 1)
      (set_console (console w ++ [(Log, Analyzing)]) w).
Proof.
  intros H.
  unfold checkPerformance, mbind at 1, M_bind at 1.
  rewrite console_log_run. set (w1 := set_console _ w).
  unfold try_catch, mbind at 1, M_bind at 1, get.
  change (lighthouse_report w1) with (lighthouse_report w). rewrite H.
  change (bool_decide (is_Some (Some (report_json lhr)))) with true.
  cbn [negb].
  unfold extract_and_check, conclude, mbind, M_bind, mret, M_ret.
  destruct (extract_scores lhr w1) as [[scores|e|c] w2]; try reflexivity.
  destruct (extract_metrics lhr w2) as [[metrics|e|c] w3]; try reflexivity.
  destruct (check_thresholds THRESHOLDS scores metrics w3) as [[st|e|c] w4];
    reflexivity.
Qed.

Lemma checkPerformance_incomplete (w : World) (lhr : Lhr) :
  lighthouse_report w = Some (report_json lhr) ->
  scores_of lhr = None \/ metrics_of lhr = None ->
  checkPerformance w
  = (Exit 1,
     set_console (console w ++ [(Log, Analyzing);
                                (Error, AnalysisError "Cannot read properties of undefined")]) w).
Proof.
  intros H Hk. rewrite (checkPerformance_parsed w lhr H).
  unfold try_catch, mbind at 1, M_bind at 1. rewrite extract_and_check_run.
  assert (Hm : match scores_of lhr, metrics_of lhr with
               | Some _, Some _ => False | _, _ => True end).
  { destruct Hk as [-> | ->]; [exact I|]. now destruct (scores_of lhr). }
  destruct (scores_of lhr), (metrics_of lhr); try contradiction;
    unfold mbind, M_bind, console_error, console_emit, modify, process_exit; simpl;
    now rewrite <- app_assoc.
Qed.

(** A report that parses and has every field: the exit status is 0 exactly
    when every check passed and the report could be written. *)
Lemma checkPerformance_evaluated (w : World) (lhr : Lhr) (scores metrics : Entries) :
  lighthouse_report w = Some (report_json lhr) ->
  scores_of lhr = Some scores ->
  metrics_of lhr = Some metrics ->
  let st := verdict THRESHOLDS scores metrics in
  exists wf,
    checkPerformance w = (Exit (if passed st && report_writable w then 0 else 1), wf)
    /\ performance_report wf = final_report w scores metrics st
    /\ (passed st = true -> In (Log, AllPassed) (console wf))
    /\ (passed st = true -> report_writable w = false ->
        exists e w3 w3' c,
          generatePerformanceReport (results st) scores metrics w3 = (Throw e, w3')
          /\ console wf = c ++ [(Error, AnalysisError e)])
    /\ exists ev, In ev (console wf)
         /\ (ev = (Log, HistoryUpdated) \/ exists e, ev = (Warn, HistoryWarning e)).
Proof.
  intros H Hs Hm st. rewrite (checkPerformance_parsed w lhr H).
  unfold try_catch, mbind at 1, M_bind at 1.
  rewrite extract_and_check_run, Hs, Hm. fold st.
  set (w1 := set_console _ (set_console _ w)).
  destruct (conclude_run scores metrics st w1)
    as (r & w' & Hc & Hok & Hthrow & Hrep & _ & Hall & ev & l & Hcon & Hev).
  rewrite Hc.
  change (report_writable w1) with (report_writable w) in *.
  change (final_report w1 scores metrics st) with (final_report w scores metrics st) in *.
  destruct (report_writable w) eqn:Hrw.
  - rewrite (Hok eq_refl), andb_true_r. exists w'.
    split; [now destruct (passed st)|]. split; [exact Hrep|].
    split; [exact Hall|]. split; [discriminate|].
    exists ev. split; [|exact Hev]. rewrite Hcon. apply in_or_app. right. now left.
  - destruct (Hthrow eq_refl) as (e & w3 & w3' & -> & Hg).
    rewrite andb_false_r. eexists. split; [reflexivity|]. simpl.
    split; [exact Hrep|].
    split; [intros Hp; apply in_or_app; left; now apply Hall|].
    split; [intros _ _; eexists e, w3, w3', _; split; [exact Hg|reflexivity]|].
    exists ev. split; [|exact Hev]. rewrite Hcon.
    apply in_or_app. left. apply in_or_app. right. now left.
Qed.

(** Every run ends in [process.exit], with status 0 or 1. *)
Lemma checkPerformance_total (w : World) :
  exists wf,
    checkPerformance w = (Exit (expected_exit w), wf)
    /\ performance_report wf = expected_report w.
Proof.
  unfold expected_exit, expected_report.
  destruct (lighthouse_report w) as [[e|lhr]|] eqn:H.
  - rewrite (checkPerformance_garbled w e H). eauto.
  - destruct (scores_of lhr) as [scores|] eqn:Hs;
      [destruct (metrics_of lhr) as [metrics|] eqn:Hm|].
    + destruct (checkPerformance_evaluated w lhr scores metrics H Hs Hm)
        as (wf & Hrun & Hrep & _).
      exists wf. split; assumption.
    + rewrite (checkPerformance_incomplete w lhr H) by now right. eauto.
    + rewrite (checkPerformance_incomplete w lhr H) by now left. eauto.
  - rewrite (checkPerformance_missing w H). eauto.
Qed.

Lemma exit_status_checkPerformance (w : World) :
  exit_status (checkPerformance w) = Some (expected_exit w).
Proof.
  destruct (checkPerformance_total w) as (wf & -> & _). reflexivity.
Qed.

(** Extraction and the loops return as soon as the report has its four
    categories and six audits. *)
Lemma extract_and_check_total (lhr : Lhr) (w : World) :
  (forall cat, In cat score_categories -> is_Some (categories lhr !! cat)) ->
  (forall name audit, In (name, audit) metric_audits -> is_Some (audits lhr !! audit)) ->
  exists scores metrics st,
    returned (extract_and_check lhr w) = Some (scores, metrics, st).
Proof.
  intros Hc Ha. rewrite extract_and_check_run. unfold scores_of, metrics_of.
  destruct (Hc "performance") as [p ->]; [simpl; tauto|].
  destruct (Hc "accessibility") as [a ->]; [simpl; tauto|].
  destruct (Hc "best-practices") as [b ->]; [simpl; tauto|].
  destruct (Hc "seo") as [s ->]; [simpl; tauto|].
  destruct (Ha "first-contentful-paint" "first-contentful-paint") as [fcp ->];
    [simpl; tauto|].
  destruct (Ha "largest-contentful-paint" "largest-contentful-paint") as [lcp ->];
    [simpl; tauto|].
  destruct (Ha "first-input-delay" "max-potential-fid") as [fid ->]; [simpl; tauto|].
  destruct (Ha "cumulative-layout-shift" "cumulative-layout-shift") as [cls ->];
    [simpl; tauto|].
  destruct (Ha "speed-index" "speed-index") as [si ->]; [simpl; tauto|].
  destruct (Ha "interactive" "interactive") as [tti ->]; [simpl; tauto|].
  eexists _, _, _. reflexivity.
Qed.

(** ** The threshold table and the shape of the result list *)

Lemma THRESHOLDS_score (i : nat) (cat : string) :
  score_categories !! i = Some cat -> THRESHOLDS !! cat = Some (Js.of_Z 90).
Proof.
  destruct i as [|[|[|[|i]]]]; simpl; intros H; inversion H;
    vm_compute; reflexivity.
Qed.

Lemma THRESHOLDS_metric (i : nat) (name audit : string) :
  metric_audits !! i = Some (name, audit) ->
  exists t, THRESHOLDS !! name = Some t /\ Js.truthy t = true /\ Js.is_nan t = false.
Proof.
  destruct i as [|[|[|[|[|[|i]]]]]]; simpl; intros H; inversion H;
    eexists; (split; [vm_compute; reflexivity|split; reflexivity]).
Qed.

Lemma scores_of_inv (lhr : Lhr) (scores : Entries) :
  scores_of lhr = Some scores ->
  exists p a b s,
    categories lhr !! "performance" = Some p
    /\ categories lhr !! "accessibility" = Some a
    /\ categories lhr !! "best-practices" = Some b
    /\ categories lhr !! "seo" = Some s
    /\ scores = [ ("performance", Js.Math_round (Js.mul p (Js.of_Z 100)));
                  ("accessibility", Js.Math_round (Js.mul a (Js.of_Z 100)));
                  ("best-practices", Js.Math_round (Js.mul b (Js.of_Z 100)));
                  ("seo", Js.Math_round (Js.mul s (Js.of_Z 100))) ].
Proof.
  unfold scores_of, mbind, option_bind.
  destruct (categories lhr !! "performance") as [p|]; [|discriminate].
  destruct (categories lhr !! "accessibility") as [a|]; [|discriminate].
  destruct (categories lhr !! "best-practices") as [b|]; [|discriminate].
  destruct (categories lhr !! "seo") as [s|]; [|discriminate].
  intros H; inversion H. exists p, a, b, s. auto.
Qed.

Lemma metrics_of_inv (lhr : Lhr) (metrics : Entries) :
  metrics_of lhr = Some metrics ->
  exists fcp lcp fid cls si tti,
    audits lhr !! "first-contentful-paint" = Some fcp
    /\ audits lhr !! "largest-contentful-paint" = Some lcp
    /\ audits lhr !! "max-potential-fid" = Some fid
    /\ audits lhr !! "cumulative-layout-shift" = Some cls
    /\ audits lhr !! "speed-index" = Some si
    /\ audits lhr !! "interactive" = Some tti
    /\ metrics = [ ("first-contentful-paint", fcp);
                   ("largest-contentful-paint", lcp);
                   ("first-input-delay", fid);
                   ("cumulative-layout-shift", cls);
                   ("speed-index", si);
                   ("interactive", tti) ].
Proof.
  unfold metrics_of, mbind, option_bind.
  destruct (audits lhr !! "first-contentful-paint") as [fcp|]; [|discriminate].
  destruct (audits lhr !! "largest-contentful-paint") as [lcp|]; [|discriminate].
  destruct (audits lhr !! "max-potential-fid") as [fid|]; [|discriminate].
  destruct (audits lhr !! "cumulative-layout-shift") as [cls|]; [|discriminate].
  destruct (audits lhr !! "speed-index") as [si|]; [|discriminate].
  destruct (audits lhr !! "interactive") as [tti|]; [|discriminate].
  intros H; inversion H. exists fcp, lcp, fid, cls, si, tti. repeat split; reflexivity.
Qed.

(** With the script's table every one of the six metrics gets past the
    guard, so the result list has the four scores and then the six
    metrics, in declaration order. *)
Lemma metric_checked_THRESHOLDS (i : nat) (name audit : string) (v : number) :
  metric_audits !! i = Some (name, audit) ->
  metric_checked THRESHOLDS (name, v) = true.
Proof.
  intros H. destruct (THRESHOLDS_metric i name audit H) as (t & Ht & Htr & _).
  unfold metric_checked; simpl. now rewrite (property_own _ _ _ Ht).
Qed.

Lemma filter_checked_extracted (lhr : Lhr) (metrics : Entries) :
  metrics_of lhr = Some metrics ->
  List.filter (metric_checked THRESHOLDS) metrics = metrics.
Proof.
  intros Hm.
  destruct (metrics_of_inv lhr metrics Hm)
    as (fcp & lcp & fid & cls & si & tti & _ & _ & _ & _ & _ & _ & ->).
  cbn [List.filter].
  rewrite (metric_checked_THRESHOLDS 0 _ _ fcp eq_refl).
  rewrite (metric_checked_THRESHOLDS 1 _ _ lcp eq_refl).
  rewrite (metric_checked_THRESHOLDS 2 _ _ fid eq_refl).
  rewrite (metric_checked_THRESHOLDS 3 _ _ cls eq_refl).
  rewrite (metric_checked_THRESHOLDS 4 _ _ si eq_refl).
  rewrite (metric_checked_THRESHOLDS 5 _ _ tti eq_refl).
  reflexivity.
Qed.

Lemma results_extracted (lhr : Lhr) (scores metrics : Entries) :
  metrics_of lhr = Some metrics ->
  results (verdict THRESHOLDS scores metrics)
  = map (score_result THRESHOLDS) scores ++ map (metric_result THRESHOLDS) metrics.
Proof.
  intros Hm. unfold verdict. cbn [results].
  now rewrite (filter_checked_extracted lhr metrics Hm).
Qed.

Lemma score_result_status T (cat : string) (s t : number) :
  T !! cat = Some t -> Js.is_nan s = false -> Js.is_nan t = false ->
  status (score_result T (cat, s)) = Passed <-> Js.ge s t = true.
Proof.
  intros HT Hs Ht. unfold score_result, score_failed; simpl.
  rewrite (property_own _ _ _ HT); simpl.
  rewrite (ge_negb_lt s t Hs Ht). destruct (Js.lt s t); simpl; split; congruence.
Qed.

Lemma metric_result_status T (name : string) (v t : number) :
  T !! name = Some t ->
  status (metric_result T (name, v)) = Failed <-> Js.gt v t = true.
Proof.
  intros HT. unfold metric_result, metric_failed; simpl.
  rewrite (property_own _ _ _ HT); simpl.
  destruct (Js.gt v t); split; congruence.
Qed.

Lemma status_cases (r : Result) : status r = Passed <-> status r <> Failed.
Proof. destruct (status r); split; congruence. Qed.

(** The [i]-th metric of a run: where its record is and what it holds. *)
Lemma metric_record (lhr : Lhr) (w : World) scores metrics st
    (i : nat) (name audit : string) (v : number) :
  returned (extract_and_check lhr w) = Some (scores, metrics, st) ->
  metric_audits !! i = Some (name, audit) ->
  audits lhr !! audit = Some v ->
  exists t,
    THRESHOLDS !! name = Some t /\ Js.is_nan t = false
    /\ metrics !! i = Some (name, v)
    /\ results st !! (4 + i)%nat = Some (metric_result THRESHOLDS (name, v)).
Proof.
  intros Hrun Hi Hv.
  destruct (extract_and_check_inv lhr w scores metrics st Hrun) as (Hs & Hm & ->).
  rewrite (results_extracted lhr scores metrics Hm).
  destruct (THRESHOLDS_metric i name audit Hi) as (t & Ht & _ & Hnan).
  exists t. split; [exact Ht|]. split; [exact Hnan|].
  destruct (scores_of_inv lhr scores Hs) as (p & a & b & s & _ & _ & _ & _ & ->).
  destruct (metrics_of_inv lhr metrics Hm)
    as (fcp & lcp & fid & cls & si & tti & H0 & H1 & H2 & H3 & H4 & H5 & ->).
  destruct i as [|[|[|[|[|[|i]]]]]]; simpl in Hi; inversion Hi; subst name audit;
    split; simpl; congruence.
Qed.

(** The [i]-th score of a run. *)
Lemma score_record (lhr : Lhr) (w : World) scores metrics st
    (i : nat) (cat : string) (frac : number) :
  returned (extract_and_check lhr w) = Some (scores, metrics, st) ->
  score_categories !! i = Some cat ->
  categories lhr !! cat = Some frac ->
  let s := Js.Math_round (Js.mul frac (Js.of_Z 100)) in
  scores !! i = Some (cat, s)
  /\ results st !! i = Some (score_result THRESHOLDS (cat, s)).
Proof.
  intros Hrun Hi Hv.
  destruct (extract_and_check_inv lhr w scores metrics st Hrun) as (Hs & Hm & ->).
  rewrite (results_extracted lhr scores metrics Hm).
  destruct (scores_of_inv lhr scores Hs) as (p & a & b & s & H0 & H1 & H2 & H3 & ->).
  destruct i as [|[|[|[|i]]]]; simpl in Hi; inversion Hi; subst cat;
    split; simpl; congruence.
Qed.

(** ** The capped append *)

Lemma append_capped_length (history : list HistoryData) (x : HistoryData) :
  (length (append_capped history x) <= 50)%nat.
Proof.
  unfold append_capped, slice_last.
  destruct (50 <? length (history ++ [x]))%nat eqn:H.
  - rewrite length_drop. lia.
  - apply Nat.ltb_ge in H. exact H.
Qed.

(** The capped log is always the tail end of the pushed log: entries leave
    from the front only and the rest keep their order. *)
Lemma append_capped_suffix (history : list HistoryData) (x : HistoryData) :
  append_capped history x
  = drop (length history + 1 - 50) (history ++ [x]).
Proof.
  unfold append_capped, slice_last. rewrite length_app; simpl.
  destruct (50 <? length history + 1)%nat eqn:H.
  - reflexivity.
  - apply Nat.ltb_ge in H.
    replace (length history + 1 - 50)%nat with 0%nat by lia. reflexivity.
Qed.

Lemma append_capped_full (oldest : HistoryData) (rest : list HistoryData) (x : HistoryData) :
  length (oldest :: rest) = 50%nat ->
  append_capped (oldest :: rest) x = rest ++ [x].
Proof.
  intros H. rewrite append_capped_suffix, H. reflexivity.
Qed.

Lemma append_capped_last (history : list HistoryData) (x : HistoryData) :
  exists front, append_capped history x = front ++ [x].
Proof.
  rewrite append_capped_suffix.
  exists (drop (length history + 1 - 50) history).
  rewrite drop_app_le by lia. reflexivity.
Qed.

(** What a save leaves in the history file, in every case. *)
Lemma savePerformanceHistory_log (scores metrics : Entries) (w : World) :
  performance_log (savePerformanceHistory scores metrics w).2 = performance_log w
  \/ exists prior,
       (performance_log w = None /\ prior = []
        \/ performance_log w = Some (history_json prior))
       /\ performance_log (savePerformanceHistory scores metrics w).2
          = Some (history_json (append_capped prior (history_entry w scores metrics))).
Proof.
  destruct w as [lr pl pr rd bd sha ref clk mke hwe rwe con].
  unfold savePerformanceHistory; unfold_M; simpl.
  destruct pl as [[e|h]|]; simpl; [now left| |];
    (destruct rd; simpl; [|destruct mke as [e|]; simpl; [now left|]]);
    (destruct hwe as [e'|]; simpl; [now left|]);
    right;
    first [ exists h; split; [now right|reflexivity]
          | exists []; split; [now left|reflexivity] ].
Qed.

(** ** The aggregate flag *)

Lemma scores_flag T (l : Entries) :
  forallb (fun e => negb (score_failed T e)) l = false
  <-> exists r, In r (map (score_result T) l) /\ status r = Failed.
Proof.
  induction l as [|e l IH]; simpl.
  - split; [discriminate|]. now intros (r & [] & _).
  - rewrite andb_false_iff, IH. split.
    + intros [H|(r & Hin & Hr)].
      * exists (score_result T e). split; [now left|].
        unfold score_result; simpl. now destruct (score_failed T e).
      * exists r. auto.
    + intros (r & [<-|Hin] & Hr).
      * left. unfold score_result in Hr; simpl in Hr.
        now destruct (score_failed T e).
      * right. eauto.
Qed.

Lemma metrics_flag T (l : Entries) :
  forallb (fun e => negb (metric_failed T e)) l = false
  <-> exists r, In r (map (metric_result T) l) /\ status r = Failed.
Proof.
  induction l as [|e l IH]; simpl.
  - split; [discriminate|]. now intros (r & [] & _).
  - rewrite andb_false_iff, IH. split.
    + intros [H|(r & Hin & Hr)].
      * exists (metric_result T e). split; [now left|].
        unfold metric_result; simpl. now destruct (metric_failed T e).
      * exists r. auto.
    + intros (r & [<-|Hin] & Hr).
      * left. unfold metric_result in Hr; simpl in Hr.
        now destruct (metric_failed T e).
      * right. eauto.
Qed.

(** The flag is cleared exactly when some pushed record is a failed one,
    whatever the table and the entries. *)
Lemma verdict_flag T (scores metrics : Entries) :
  passed (verdict T scores metrics) = false
  <-> exists r, In r (results (verdict T scores metrics)) /\ status r = Failed.
Proof.
  unfold verdict; cbn [passed results].
  rewrite andb_false_iff, scores_flag, metrics_flag. split.
  - intros [(r & Hin & Hr)|(r & Hin & Hr)]; exists r;
      (split; [apply in_or_app; auto|exact Hr]).
  - intros (r & Hin & Hr). apply in_app_or in Hin as [Hin|Hin]; eauto.
Qed.

Lemma generatePerformanceReport_throws_iff rs (scores metrics : Entries) (w : World) :
  report_writable w = false
  <-> exists e w', generatePerformanceReport rs scores metrics w = (Throw e, w').
Proof.
  split.
  - intros H. destruct (generatePerformanceReport_throws rs scores metrics w H)
      as (e & d & Hg). eauto.
  - intros (e & w' & Hg). destruct (report_writable w) eqn:H; [|reflexivity].
    rewrite (generatePerformanceReport_ok rs scores metrics w H) in Hg. discriminate.
Qed.

(** ** Outside the numbers: NaN *)

(** A score that is NaN (its field absent or not numeric) is printed with
    the failed mark, since [NaN >= t] is false, and pushed as a passed
    record, since [NaN < t] is false too. *)
Lemma nan_score_recorded_passed T (cat : string) :
  score_line T (cat, Js.NaN) = (Log, ScoreLine false cat Js.NaN (property T cat))
  /\ status (score_result T (cat, Js.NaN)) = Passed.
Proof. split; reflexivity. Qed.

Lemma nan_metric_recorded_passed T (name : string) :
  Js.le Js.NaN (ToNumber (property T name)) = false
  /\ status (metric_result T (name, Js.NaN)) = Passed.
Proof.
  unfold metric_result, metric_failed, Js.le, Js.gt, Js.IsLessThan; simpl.
  destruct (ToNumber (property T name)); split; reflexivity.
Qed.

(** ** The claims *)

(** C2.  For each of the four category scores, with [s] the integer
    percentage [Math.round(score * 100)] and [t] the category's threshold,
    the record pushed for it is a score record carrying [s] and [t] whose
    status is passed exactly when [s >= t]; in particular it is passed when
    [s] equals [t].  The fractional score is a number (not NaN). *)
Theorem score_outcome_inclusive (lhr : Lhr) (w : World) scores metrics st
    (i : nat) (cat : string) (frac : number) :
  returned (extract_and_check lhr w) = Some (scores, metrics, st) ->
  score_categories !! i = Some cat ->
  categories lhr !! cat = Some frac ->
  Js.is_nan frac = false ->
  let s := Js.Math_round (Js.mul frac (Js.of_Z 100)) in
  exists t r,
    THRESHOLDS !! cat = Some t
    /\ results st !! i = Some r
    /\ type r = Score /\ category r = cat /\ value r = s /\ threshold r = num t
    /\ (status r = Passed <-> Js.ge s t = true)
    /\ (s = t -> status r = Passed).
Proof.
  intros Hrun Hi Hv Hnan s.
  destruct (score_record lhr w scores metrics st i cat frac Hrun Hi Hv) as [_ Hr].
  pose proof (THRESHOLDS_score i cat Hi) as Ht.
  exists (Js.of_Z 90), (score_result THRESHOLDS (cat, s)).
  split; [exact Ht|]. split; [exact Hr|].
  repeat (split; [reflexivity|]).
  split; [simpl; exact (property_own _ _ _ Ht)|].
  assert (Hiff : status (score_result THRESHOLDS (cat, s)) = Passed
                 <-> Js.ge s (Js.of_Z 90) = true).
  { apply score_result_status; [exact Ht| |reflexivity].
    now apply percentage_not_nan. }
  split; [exact Hiff|].
  intros ->. apply Hiff.
  rewrite ge_negb_lt by reflexivity. now rewrite lt_irrefl.
Qed.

(** C3.  For each of the six metrics, with raw value [v] and threshold [t]
    from the table, the record pushed for it is a metric record whose
    status is passed exactly when [v <= t]: passed when [v] equals [t],
    failed when [v > t].  The raw value is a number (not NaN). *)
Theorem metric_outcome_inclusive (lhr : Lhr) (w : World) scores metrics st
    (i : nat) (name audit : string) (v : number) :
  returned (extract_and_check lhr w) = Some (scores, metrics, st) ->
  metric_audits !! i = Some (name, audit) ->
  audits lhr !! audit = Some v ->
  Js.is_nan v = false ->
  exists t r,
    THRESHOLDS !! name = Some t
    /\ results st !! (4 + i)%nat = Some r
    /\ type r = Metric /\ category r = name /\ threshold r = num t
    /\ (status r = Passed <-> Js.le v t = true)
    /\ (v = t -> status r = Passed)
    /\ (Js.gt v t = true -> status r = Failed).
Proof.
  intros Hrun Hi Hv Hnan.
  destruct (metric_record lhr w scores metrics st i name audit v Hrun Hi Hv)
    as (t & Ht & Htn & _ & Hr).
  exists t, (metric_result THRESHOLDS (name, v)).
  split; [exact Ht|]. split; [exact Hr|].
  repeat (split; [reflexivity|]).
  split; [simpl; exact (property_own _ _ _ Ht)|].
  pose proof (metric_result_status THRESHOLDS name v t Ht) as Hf.
  assert (Hiff : status (metric_result THRESHOLDS (name, v)) = Passed
                 <-> Js.le v t = true).
  { rewrite status_cases, Hf, (le_negb_gt v t Hnan Htn).
    destruct (Js.gt v t); simpl; split; congruence. }
  split; [exact Hiff|]. split; [|apply Hf].
  intros ->. apply Hiff. rewrite le_negb_gt by assumption. now rewrite gt_irrefl.
Qed.

(** C4.  After a save that goes through, the history file holds at most 50
    entries.  When the prior log held exactly 50, the new log is the prior
    one without its entry at index 0, in the same order, followed by the
    new record: exactly 50 entries, the new record last, and the evicted
    entry gone (when the log had no duplicate of it).  A save that fails
    leaves the file as it was, so a log within the cap stays within it
    after any save. *)
Theorem history_capped_at_50 (w : World) (scores metrics : Entries)
    (prior : list HistoryData) :
  let new := history_entry w scores metrics in
  let after := performance_log (savePerformanceHistory scores metrics w).2 in
  (performance_log w = None /\ prior = [] \/ performance_log w = Some (history_json prior) ->
   reports_dir w = true \/ mkdir_error w = None ->
   history_write_error w = None ->
   exists log,
     after = Some (history_json log)
     /\ (length log <= 50)%nat
     /\ (exists front, log = front ++ [new])
     /\ log = drop (length prior + 1 - 50) (prior ++ [new])
     /\ forall oldest rest,
          prior = oldest :: rest -> length prior = 50%nat ->
          log = rest ++ [new] /\ length log = 50%nat
          /\ (NoDup prior -> new <> oldest -> ~ In oldest log))
  /\ (within_cap (performance_log w) -> within_cap after).
Proof.
  intros new after. split.
  - intros Hpl Hdir Hwr.
    exists (append_capped prior new).
    split; [now apply savePerformanceHistory_saved|].
    split; [apply append_capped_length|].
    split; [apply append_capped_last|].
    split; [apply append_capped_suffix|].
    intros oldest rest -> Hlen.
    rewrite (append_capped_full oldest rest new Hlen).
    split; [reflexivity|]. split.
    + rewrite length_app; simpl in *. lia.
    + intros Hnd Hne Hin. apply in_app_or in Hin as [Hin|[Heq|[]]].
      * apply NoDup_cons in Hnd as [Hnot _]. apply Hnot.
        now apply list_elem_of_In.
      * now apply Hne.
  - intros Hcap. subst after.
    destruct (savePerformanceHistory_log scores metrics w) as [->|(l & _ & ->)];
      [exact Hcap|].
    simpl. apply append_capped_length.
Qed.

(** C5.  With no report file the run prints the banner and the error
    message, exits with status 1, and leaves the history file, the HTML
    report and the reports directory as they were. *)
Theorem missing_report_is_fatal (w : World) :
  lighthouse_report w = None ->
  let r := checkPerformance w in
  exit_status r = Some 1
  /\ console r.2 = console w ++ [(Log, Analyzing); (Error, ReportNotFound)]
  /\ performance_log r.2 = performance_log w
  /\ performance_report r.2 = performance_report w
  /\ reports_dir r.2 = reports_dir w.
Proof.
  intros H r. subst r. rewrite (checkPerformance_missing w H).
  repeat split; reflexivity.
Qed.

(** The double nearest to 0.895, and its distance to 0.895 in units of
    2^-53: at most one half. *)
Lemma of_frac_895 :
  Js.of_frac 895 1000 = S754_finite false 8061443332993188 (-53)
  /\ 2 * Z.abs (1000 * 8061443332993188 - 895 * 2 ^ 53) <= 1000.
Proof. split; [vm_compute; reflexivity|vm_compute; discriminate]. Qed.

(** C7.  A report whose performance category has the fractional score
    0.895: the product with 100 is exactly 89.5, the percentage is 90, and
    against the threshold 90 the record is passed. *)
Theorem score_0895_passes (lhr : Lhr) (w : World) scores metrics st :
  categories lhr !! "performance" = Some (Js.of_frac 895 1000) ->
  returned (extract_and_check lhr w) = Some (scores, metrics, st) ->
  Js.mul (Js.of_frac 895 1000) (Js.of_Z 100) = Js.of_frac 895 10
  /\ scores !! 0%nat = Some ("performance", Js.of_Z 90)
  /\ THRESHOLDS !! "performance" = Some (Js.of_Z 90)
  /\ results st !! 0%nat
     = Some {| type := Score; category := "performance"; value := Js.of_Z 90;
               threshold := num (Js.of_Z 90); status := Passed |}.
Proof.
  intros Hp Hrun.
  destruct (score_record lhr w scores metrics st 0 "performance" _ Hrun eq_refl Hp)
    as [Hs Hr].
  assert (Hround : Js.Math_round (Js.mul (Js.of_frac 895 1000) (Js.of_Z 100)) = Js.of_Z 90)
    by (vm_compute; reflexivity).
  rewrite Hround in Hs, Hr.
  split; [vm_compute; reflexivity|]. split; [exact Hs|].
  split; [vm_compute; reflexivity|].
  rewrite Hr. vm_compute. reflexivity.
Qed.



(** C9.  The record of a metric stores [Math.round(value)] while its status
    comes from comparing the raw value; so a first contentful paint of
    1800.25, strictly between the threshold 1800 and 1800.5, is recorded
    as failed with the stored value 1800, equal to the threshold. *)
Theorem metric_value_rounded_status_raw :
  (forall (lhr : Lhr) (w : World) scores metrics st
          (i : nat) (name audit : string) (v : number),
      returned (extract_and_check lhr w) = Some (scores, metrics, st) ->
      metric_audits !! i = Some (name, audit) ->
      audits lhr !! audit = Some v ->
      exists t r,
        THRESHOLDS !! name = Some t
        /\ results st !! (4 + i)%nat = Some r
        /\ value r = Js.Math_round v
        /\ (status r = Failed <-> Js.gt v t = true))
  /\ (exists (lhr : Lhr) (w : World) scores metrics st (v t : number) (r : Result),
        returned (extract_and_check lhr w) = Some (scores, metrics, st)
        /\ audits lhr !! "first-contentful-paint" = Some v
        /\ THRESHOLDS !! "first-contentful-paint" = Some t
        /\ Js.lt t v = true /\ Js.lt v (Js.add t (Js.of_frac 1 2)) = true
        /\ results st !! 4%nat = Some r
        /\ status r = Failed /\ value r = t).
Proof.
  split.
  - intros lhr w scores metrics st i name audit v Hrun Hi Hv.
    destruct (metric_record lhr w scores metrics st i name audit v Hrun Hi Hv)
      as (t & Ht & _ & _ & Hr).
    exists t, (metric_result THRESHOLDS (name, v)).
    split; [exact Ht|]. split; [exact Hr|]. split; [reflexivity|].
    now apply metric_result_status.
  - set (lhr := sample_lhr (Js.of_frac 95 100) (Js.of_frac 180025 100)).
    set (w := sample_world (Some (report_json lhr)) None None).
    assert (Hv : audits lhr !! "first-contentful-paint" = Some (Js.of_frac 180025 100))
      by (vm_compute; reflexivity).
    destruct (returned (extract_and_check lhr w)) as [[[scores metrics] st]|] eqn:Hrun;
      [|vm_compute in Hrun; discriminate].
    destruct (metric_record lhr w scores metrics st 0 _ _ _ Hrun eq_refl Hv)
      as (t & Ht & _ & _ & Hr).
    assert (t = Js.of_Z 1800) as ->.
    { assert (Ht' : THRESHOLDS !! "first-contentful-paint" = Some (Js.of_Z 1800))
        by (vm_compute; reflexivity).
      congruence. }
    exists lhr, w, scores, metrics, st, (Js.of_frac 180025 100), (Js.of_Z 1800),
      (metric_result THRESHOLDS ("first-contentful-paint", Js.of_frac 180025 100)).
    split; [exact Hrun|]. split; [exact Hv|]. split; [exact Ht|].
    split; [vm_compute; reflexivity|]. split; [vm_compute; reflexivity|].
    split; [exact Hr|]. split; vm_compute; reflexivity.
Qed.

(** C1, as the code has it.  The aggregate flag is cleared exactly when
    some record is failed; every score and every metric has its record, in
    declaration order, whether or not an earlier one failed; a failed
    aggregate exits with status 1, and a passed one exits with status 0
    when the HTML report can be written. *)
Theorem aggregate_and_exit_status (w : World) (lhr : Lhr) scores metrics st :
  lighthouse_report w = Some (report_json lhr) ->
  returned (extract_and_check lhr w) = Some (scores, metrics, st) ->
  (passed st = false <-> exists r, In r (results st) /\ status r = Failed)
  /\ map category (results st) = score_categories ++ map fst metric_audits
  /\ (passed st = false -> exit_status (checkPerformance w) = Some 1)
  /\ (passed st = true -> report_writable w = true ->
      exit_status (checkPerformance w) = Some 0).
Proof.
  intros Hfile Hrun.
  destruct (extract_and_check_inv lhr w scores metrics st Hrun) as (Hs & Hm & ->).
  split; [apply verdict_flag|]. split.
  - rewrite (results_extracted lhr scores metrics Hm).
    destruct (scores_of_inv lhr scores Hs) as (p & a & b & s & _ & _ & _ & _ & ->).
    destruct (metrics_of_inv lhr metrics Hm)
      as (fcp & lcp & fid & cls & si & tti & _ & _ & _ & _ & _ & _ & ->).
    reflexivity.
  - rewrite exit_status_checkPerformance. unfold expected_exit.
    rewrite Hfile, Hs, Hm.
    split; [intros ->; reflexivity|intros -> ->; reflexivity].
Qed.

(** C1 as stated fails: every check of this report passes, yet the run
    exits with status 1 because the HTML report cannot be written. *)
Lemma passed_run_exits_1 :
  let lhr := sample_lhr (Js.of_frac 95 100) (Js.of_Z 1000) in
  let w := sample_world (Some (report_json lhr)) None (Some "EACCES") in
  exists scores metrics st,
    returned (extract_and_check lhr w) = Some (scores, metrics, st)
    /\ passed st = true
    /\ (forall r, In r (results st) -> status r = Passed)
    /\ exit_status (checkPerformance w) = Some 1
    /\ exit_status (checkPerformance w) <> Some 0.
Proof.
  intros lhr w.
  destruct (returned (extract_and_check lhr w)) as [[[scores metrics] st]|] eqn:Hrun;
    [|vm_compute in Hrun; discriminate].
  exists scores, metrics, st. split; [reflexivity|].
  assert (Hp : passed st = true).
  { vm_compute in Hrun. inversion Hrun. reflexivity. }
  split; [exact Hp|]. split.
  - intros r Hin. destruct (status r) eqn:Hr; [reflexivity|].
    destruct (extract_and_check_inv lhr w scores metrics st Hrun) as (_ & _ & ->).
    assert (passed (verdict THRESHOLDS scores metrics) = false)
      by (apply verdict_flag; eauto).
    congruence.
  - assert (He : exit_status (checkPerformance w) = Some 1) by (vm_compute; reflexivity).
    rewrite He. split; [reflexivity|discriminate].
Qed.

(** C10.  On a run where every check passed, if generating the HTML report
    throws, the run exits with status 1: "all passed" has been printed,
    the exception reaches the blanket handler, which prints its message
    last. *)
Theorem report_failure_is_fatal (w : World) (lhr : Lhr) scores metrics st :
  lighthouse_report w = Some (report_json lhr) ->
  returned (extract_and_check lhr w) = Some (scores, metrics, st) ->
  passed st = true ->
  report_writable w = false ->
  let r := checkPerformance w in
  exit_status r = Some 1
  /\ In (Log, AllPassed) (console r.2)
  /\ exists e w3 w3' c,
       generatePerformanceReport (results st) scores metrics w3 = (Throw e, w3')
       /\ console r.2 = c ++ [(Error, AnalysisError e)].
Proof.
  intros Hfile Hrun Hp Hw r. subst r.
  destruct (extract_and_check_inv lhr w scores metrics st Hrun) as (Hs & Hm & ->).
  destruct (checkPerformance_evaluated w lhr scores metrics Hfile Hs Hm)
    as (wf & -> & _ & Hall & Hthrow & _).
  rewrite Hw, andb_false_r. split; [reflexivity|].
  split; [exact (Hall Hp)|]. exact (Hthrow Hp Hw).
Qed.

(** ** The theorems at sample inputs *)

Lemma aggregate_and_exit_status_witness :
  passed sample_locals = true
  /\ map category (results sample_locals) = score_categories ++ map fst metric_audits
  /\ exit_status (checkPerformance sample_start) = Some 0.
Proof.
  destruct (aggregate_and_exit_status sample_start sample_report
              sample_scores sample_metrics sample_locals)
    as (_ & Hcat & _ & Hexit);
    [reflexivity|vm_compute; reflexivity|].
  split; [vm_compute; reflexivity|]. split; [exact Hcat|].
  apply Hexit; vm_compute; reflexivity.
Defined.

Lemma score_outcome_inclusive_witness :
  exists t r,
    THRESHOLDS !! "performance" = Some t
    /\ results sample_locals !! 0%nat = Some r
    /\ value r = t /\ status r = Passed.
Proof.
  destruct (score_outcome_inclusive sample_report sample_start
              sample_scores sample_metrics sample_locals
              0 "performance" (Js.of_frac 895 1000))
    as (t & r & Ht & Hr & _ & _ & Hv & _ & _ & Heq);
    [vm_compute; reflexivity|reflexivity|vm_compute; reflexivity|reflexivity|].
  exists t, r. split; [exact Ht|]. split; [exact Hr|].
  assert (Hvt : value r = t).
  { rewrite Hv. assert (Some (Js.of_Z 90) = Some t) as Hs
      by (rewrite <- Ht; vm_compute; reflexivity).
    inversion Hs. vm_compute. reflexivity. }
  split; [exact Hvt|]. apply Heq. now rewrite <- Hv.
Defined.

Lemma metric_outcome_inclusive_witness :
  exists t r,
    THRESHOLDS !! "first-contentful-paint" = Some t
    /\ results sample_locals !! 4%nat = Some r
    /\ status r = Passed.
Proof.
  destruct (metric_outcome_inclusive sample_report sample_start
              sample_scores sample_metrics sample_locals
              0 "first-contentful-paint" "first-contentful-paint" (Js.of_Z 1800))
    as (t & r & Ht & Hr & _ & _ & _ & _ & Heq & _);
    [vm_compute; reflexivity|reflexivity|vm_compute; reflexivity|reflexivity|].
  exists t, r. split; [exact Ht|]. split; [exact Hr|].
  apply Heq.
  assert (Some (Js.of_Z 1800) = Some t) as Hs by (rewrite <- Ht; vm_compute; reflexivity).
  now inversion Hs.
Defined.

Lemma history_capped_at_50_witness :
  length full_history = 50%nat
  /\ exists log,
       performance_log (savePerformanceHistory sample_scores sample_metrics sample_full).2
       = Some (history_json log)
       /\ length log = 50%nat
       /\ log = drop 1 full_history
                ++ [history_entry sample_full sample_scores sample_metrics].
Proof.
  split; [reflexivity|].
  destruct (proj1 (history_capped_at_50 sample_full sample_scores sample_metrics
                     full_history))
    as (log & Hlog & _ & _ & _ & Hfull);
    [right; reflexivity|left; reflexivity|reflexivity|].
  destruct (Hfull (old_entry 0) (map old_entry (seq 1 49)) eq_refl eq_refl)
    as (Heq & Hlen & _).
  exists log. split; [exact Hlog|]. split; [exact Hlen|exact Heq].
Defined.

Lemma missing_report_is_fatal_witness :
  exit_status (checkPerformance (sample_world None (Some (history_json full_history)) None))
  = Some 1
  /\ performance_log
       (checkPerformance (sample_world None (Some (history_json full_history)) None)).2
     = Some (history_json full_history).
Proof.
  destruct (missing_report_is_fatal
              (sample_world None (Some (history_json full_history)) None))
    as (Hexit & _ & Hlog & _); [reflexivity|].
  split; [exact Hexit|exact Hlog].
Defined.

Lemma score_0895_passes_witness :
  results sample_locals !! 0%nat
  = Some {| type := Score; category := "performance"; value := Js.of_Z 90;
            threshold := num (Js.of_Z 90); status := Passed |}.
Proof.
  destruct (score_0895_passes sample_report sample_start
              sample_scores sample_metrics sample_locals)
    as (_ & _ & _ & Hr); [vm_compute; reflexivity|vm_compute; reflexivity|].
  exact Hr.
Defined.


Lemma metric_value_rounded_status_raw_witness :
  exists t r,
    THRESHOLDS !! "cumulative-layout-shift" = Some t
    /\ results sample_locals !! 7%nat = Some r
    /\ value r = Js.Math_round (Js.of_frac 5 100).
Proof.
  destruct (proj1 metric_value_rounded_status_raw sample_report sample_start
              sample_scores sample_metrics sample_locals
              3%nat "cumulative-layout-shift" "cumulative-layout-shift" (Js.of_frac 5 100))
    as (t & r & Ht & Hr & Hv & _);
    [vm_compute; reflexivity|reflexivity|vm_compute; reflexivity|].
  exists t, r. split; [exact Ht|]. split; [exact Hr|exact Hv].
Defined.

Lemma report_failure_is_fatal_witness :
  passed sample_locals = true
  /\ report_writable (sample_world (Some (report_json sample_report)) None (Some "EACCES"))
     = false
  /\ exit_status
       (checkPerformance (sample_world (Some (report_json sample_report)) None (Some "EACCES")))
     = Some 1.
Proof.
  split; [vm_compute; reflexivity|]. split; [reflexivity|].
  destruct (report_failure_is_fatal
              (sample_world (Some (report_json sample_report)) None (Some "EACCES"))
              sample_report sample_scores sample_metrics sample_locals)
    as (Hexit & _);
    [reflexivity|vm_compute; reflexivity|vm_compute; reflexivity|reflexivity|].
  exact Hexit.
Defined.

(** * More of the script *)

(** ** The end of a run *)

(** X1.  Whatever the files hold and whichever call fails, a run ends in
    [process.exit] with status 0 or 1: it never returns normally and no
    exception leaves [checkPerformance]. *)
Theorem run_always_exits (w : World) :
  exists c wf, checkPerformance w = (Exit c, wf) /\ (c = 0 \/ c = 1).
Proof.
  destruct (checkPerformance_total w) as (wf & H & _).
  exists (expected_exit w), wf. split; [exact H|].
  unfold expected_exit.
  destruct (lighthouse_report w) as [[e|lhr]|]; auto.
  destruct (scores_of lhr), (metrics_of lhr); auto.
  destruct (passed _ && report_writable w); auto.
Qed.

(** X2.  The exit status is 0 exactly when the report parses and has every
    field the script reads, every check passed, and the HTML report could
    be written. *)
Theorem exit_zero_iff (w : World) :
  exit_status (checkPerformance w) = Some 0
  <-> exists lhr scores metrics st,
        lighthouse_report w = Some (report_json lhr)
        /\ returned (extract_and_check lhr w) = Some (scores, metrics, st)
        /\ passed st = true
        /\ report_writable w = true.
Proof.
  rewrite exit_status_checkPerformance. unfold expected_exit. split.
  - destruct (lighthouse_report w) as [[e|lhr]|]; try discriminate.
    destruct (scores_of lhr) as [scores|] eqn:Hs; try discriminate.
    destruct (metrics_of lhr) as [metrics|] eqn:Hm; try discriminate.
    destruct (passed (verdict THRESHOLDS scores metrics)) eqn:Hp; try discriminate.
    destruct (report_writable w) eqn:Hw; try discriminate.
    intros _. exists lhr, scores, metrics, (verdict THRESHOLDS scores metrics).
    repeat split; try assumption.
    rewrite extract_and_check_run, Hs, Hm. reflexivity.
  - intros (lhr & scores & metrics & st & -> & Hrun & Hp & ->).
    destruct (extract_and_check_inv lhr w scores metrics st Hrun) as (-> & -> & ->).
    now rewrite Hp.
Qed.

Lemma lacks_field_None (lhr : Lhr) :
  lacks_field lhr -> scores_of lhr = None \/ metrics_of lhr = None.
Proof.
  intros [(cat & Hin & H)|(name & audit & Hin & H)].
  - left. unfold scores_of, mbind, option_bind.
    simpl in Hin. destruct Hin as [<-|[<-|[<-|[<-|[]]]]]; rewrite H;
      repeat match goal with
             | |- context [match ?m !! ?k with _ => _ end] => destruct (m !! k)
             end; reflexivity.
  - right. unfold metrics_of, mbind, option_bind.
    simpl in Hin.
    destruct Hin as [Heq|[Heq|[Heq|[Heq|[Heq|[Heq|[]]]]]]]; inversion Heq; subst;
      rewrite H;
      repeat match goal with
             | |- context [match ?m !! ?k with _ => _ end] => destruct (m !! k)
             end; reflexivity.
Qed.

(** X3.  A report file that does not parse, or that lacks one of the four
    categories or six audits, is fatal before anything is evaluated: the
    run prints the banner and one error line, exits with status 1, and
    changes nothing else (no history entry, no HTML report). *)
Theorem unusable_report_is_fatal (w : World) (file : ReportFile) :
  lighthouse_report w = Some file ->
  (exists e, file = report_garbled e)
  \/ (exists lhr, file = report_json lhr /\ lacks_field lhr) ->
  exists message,
    checkPerformance w
    = (Exit 1,
       set_console (console w ++ [(Log, Analyzing); (Error, AnalysisError message)]) w).
Proof.
  intros Hfile [(e & ->)|(lhr & -> & Hl)].
  - exists e. now apply checkPerformance_garbled.
  - eexists. apply (checkPerformance_incomplete w lhr Hfile).
    now apply lacks_field_None.
Qed.

(** The world a run that got through the loops ends in: the one [conclude]
    leaves, up to what the blanket handler prints. *)
Lemma checkPerformance_after_conclude (w : World) (lhr : Lhr) (scores metrics : Entries) :
  lighthouse_report w = Some (report_json lhr) ->
  scores_of lhr = Some scores ->
  metrics_of lhr = Some metrics ->
  exists c0 r w' c,
    conclude scores metrics (verdict THRESHOLDS scores metrics)
      (set_console (console w ++ c0) w) = (r, w')
    /\ (checkPerformance w).2 = set_console c w'.
Proof.
  intros H Hs Hm. rewrite (checkPerformance_parsed w lhr H).
  unfold try_catch, mbind at 1, M_bind at 1.
  rewrite extract_and_check_run, Hs, Hm.
  exists ([(Log, Analyzing)] ++ verdict_lines THRESHOLDS scores metrics).
  match goal with
  | |- context [conclude _ _ _ ?w1] =>
      replace w1
        with (set_console
                (console w ++ [(Log, Analyzing)] ++ verdict_lines THRESHOLDS scores metrics) w)
        by (unfold set_console; simpl; now rewrite <- app_assoc)
  end.
  destruct (conclude scores metrics _ _) as [[[]|e|c] w'] eqn:Hc.
  - exists (Return tt), w', (console w'). split; [reflexivity|].
    simpl. now rewrite set_console_same.
  - eexists (Throw e), w', _. split; reflexivity.
  - exists (Exit c), w', (console w'). split; [reflexivity|].
    simpl. now rewrite set_console_same.
Qed.

(** What a save leaves in the history file does not depend on the console
    or on the build directory. *)
Lemma savePerformanceHistory_log_console (scores metrics : Entries) (w : World) c :
  performance_log (savePerformanceHistory scores metrics (set_console c w)).2
  = performance_log (savePerformanceHistory scores metrics w).2.
Proof.
  destruct w as [lr pl pr rd bd sha ref clk mke hwe rwe con].
  unfold savePerformanceHistory; unfold_M; simpl.
  destruct pl as [[e|h]|]; simpl; try reflexivity;
    (destruct rd; simpl; [|destruct mke as [e|]; simpl; [reflexivity|]]);
    destruct hwe as [e'|]; reflexivity.
Qed.

Lemma savePerformanceHistory_log_build_dir (scores metrics : Entries) (w : World) d :
  performance_log (savePerformanceHistory scores metrics (set_build_dir d w)).2
  = performance_log (savePerformanceHistory scores metrics w).2.
Proof.
  destruct w as [lr pl pr rd bd sha ref clk mke hwe rwe con].
  unfold savePerformanceHistory; unfold_M; simpl.
  destruct pl as [[e|h]|]; simpl; try reflexivity;
    (destruct rd; simpl; [|destruct mke as [e|]; simpl; [reflexivity|]]);
    destruct hwe as [e'|]; reflexivity.
Qed.

Lemma generatePerformanceReport_keeps_dir rs (scores metrics : Entries) (w : World) :
  reports_dir w = true ->
  reports_dir (generatePerformanceReport rs scores metrics w).2 = true.
Proof.
  destruct w as [lr pl pr rd bd sha ref clk mke hwe rwe con]; simpl. intros ->.
  unfold generatePerformanceReport; unfold_M; simpl.
  now destruct rwe.
Qed.

(** After the save, nothing in [conclude] touches the history file, and
    nothing in it touches the input report or removes the reports
    directory. *)
Lemma conclude_frame (scores metrics : Entries) (st : Locals) (w : World) :
  performance_log (conclude scores metrics st w).2
  = performance_log (savePerformanceHistory scores metrics w).2
  /\ lighthouse_report (conclude scores metrics st w).2 = lighthouse_report w
  /\ build_dir (conclude scores metrics st w).2 = build_dir w
  /\ (reports_dir w = true -> reports_dir (conclude scores metrics st w).2 = true).
Proof.
  destruct (savePerformanceHistory_run scores metrics w) as (c & h & d & Hs & Hd & _).
  pose proof (report_writable_after_save w c h d Hd) as Hw.
  rewrite Hs.
  set (w1 := set_console c (set_performance_log h (set_reports_dir d w))) in *.
  destruct (checkBundleSize_run w1) as [c2 Hb].
  set (w2 := set_console (console w1 ++ c2) w1) in *.
  assert (Hdir : reports_dir w = true -> d = true).
  { intros Ht. destruct Hd as [->|[-> _]]; [exact Ht|reflexivity]. }
  unfold conclude.
  rewrite (run_bind_Return _ _ _ _ _ Hs), (run_bind_Return _ _ _ _ _ Hb).
  rewrite (run_bind_Return _ _ _ _ _ (console_log_run DoubleRule w2)).
  destruct (report_writable w1) eqn:Hrw.
  - destruct (passed st);
      rewrite ?(run_bind_Return _ _ _ _ _ (console_log_run _ _));
      erewrite run_bind_Return by (apply generatePerformanceReport_ok; exact Hrw);
      simpl; auto.
  - destruct (passed st);
      rewrite ?(run_bind_Return _ _ _ _ _ (console_log_run _ _));
      match goal with
      | |- context [(generatePerformanceReport ?rs ?s ?m ≫= _) ?w0] =>
          destruct (generatePerformanceReport_throws rs s m w0 Hrw) as (e & d' & Hg)
      end;
      rewrite (run_bind_Throw _ _ _ _ _ Hg); simpl;
      (split; [reflexivity|split; [reflexivity|split; [reflexivity|]]]); intros Ht;
      match type of Hg with
      | generatePerformanceReport ?rs ?s ?m ?w0 = _ =>
          pose proof (generatePerformanceReport_keeps_dir rs s m w0 (Hdir Ht)) as Hk
      end;
      rewrite Hg in Hk; exact Hk.
Qed.

Lemma checkPerformance_log (w : World) :
  performance_log (checkPerformance w).2 = expected_log w.
Proof.
  unfold expected_log.
  destruct (lighthouse_report w) as [[e|lhr]|] eqn:H.
  - now rewrite (checkPerformance_garbled w e H).
  - destruct (scores_of lhr) as [scores|] eqn:Hs;
      [destruct (metrics_of lhr) as [metrics|] eqn:Hm|].
    + destruct (checkPerformance_after_conclude w lhr scores metrics H Hs Hm)
        as (c0 & r & w' & c & Hc & ->).
      simpl. replace w' with (r, w').2 by reflexivity. rewrite <- Hc.
      destruct (conclude_frame scores metrics (verdict THRESHOLDS scores metrics)
                  (set_console (console w ++ c0) w)) as (-> & _).
      apply savePerformanceHistory_log_console.
    + now rewrite (checkPerformance_incomplete w lhr H) by now right.
    + now rewrite (checkPerformance_incomplete w lhr H) by now left.
  - now rewrite (checkPerformance_missing w H).
Qed.

(** X4.  A run that gets through the loops appends its entry to the history
    whatever the verdict: when the history file is absent or parses and can
    be written, the file ends up holding the capped log with the run's
    scores and metrics, even if a check failed and even if the HTML report
    could not be written afterwards. *)
Theorem history_saved_whatever_the_verdict (w : World) (lhr : Lhr)
    scores metrics st (prior : list HistoryData) :
  lighthouse_report w = Some (report_json lhr) ->
  returned (extract_and_check lhr w) = Some (scores, metrics, st) ->
  performance_log w = None /\ prior = [] \/ performance_log w = Some (history_json prior) ->
  reports_dir w = true \/ mkdir_error w = None ->
  history_write_error w = None ->
  performance_log (checkPerformance w).2
  = Some (history_json (append_capped prior (history_entry w scores metrics))).
Proof.
  intros Hfile Hrun Hpl Hdir Hwr.
  destruct (extract_and_check_inv lhr w scores metrics st Hrun) as (Hs & Hm & _).
  rewrite checkPerformance_log. unfold expected_log. rewrite Hfile, Hs, Hm.
  now apply savePerformanceHistory_saved.
Qed.

Lemma history_saved_whatever_the_verdict_witness :
  exit_status (checkPerformance sample_failing) = Some 1
  /\ exists log,
       performance_log (checkPerformance sample_failing).2 = Some (history_json log)
       /\ length log = 50%nat
       /\ (last log ≫= fun e => scores e !! 0%nat)
          = Some ("performance", Js.of_Z 50).
Proof.
  split; [vm_compute; reflexivity|].
  eexists. split.
  - eapply (history_saved_whatever_the_verdict sample_failing _ _ _ _ full_history);
      [reflexivity|vm_compute; reflexivity|right; reflexivity|left; reflexivity
      |reflexivity].
  - split; vm_compute; reflexivity.
Defined.

(** X5.  The HTML report is generated on both branches of the verdict: when
    it can be written, the file holds exactly the records, scores and
    metrics of this run, failed records included, and the exit status is
    the verdict. *)
Theorem report_written_whatever_the_verdict (w : World) (lhr : Lhr) scores metrics st :
  lighthouse_report w = Some (report_json lhr) ->
  returned (extract_and_check lhr w) = Some (scores, metrics, st) ->
  report_writable w = true ->
  performance_report (checkPerformance w).2
  = Some {| generated_on := clock w; detailed_results := results st;
            chart_scores := scores; chart_metrics := metrics |}
  /\ exit_status (checkPerformance w) = Some (if passed st then 0 else 1).
Proof.
  intros Hfile Hrun Hw.
  destruct (extract_and_check_inv lhr w scores metrics st Hrun) as (Hs & Hm & ->).
  destruct (checkPerformance_total w) as (wf & Heq & Hrep).
  rewrite Heq. simpl. rewrite Hrep.
  unfold expected_report, expected_exit, final_report. rewrite Hfile, Hs, Hm, Hw.
  split; [reflexivity|]. now rewrite andb_true_r.
Qed.

Lemma report_written_whatever_the_verdict_witness :
  exists html,
    performance_report
      (checkPerformance
         (sample_world (Some (report_json (sample_lhr (Js.of_frac 5 10) (Js.of_Z 1800))))
            None None)).2 = Some html
    /\ (status <$> detailed_results html !! 0%nat) = Some Failed
    /\ length (detailed_results html) = 10%nat.
Proof.
  set (lhr := sample_lhr (Js.of_frac 5 10) (Js.of_Z 1800)).
  set (w := sample_world (Some (report_json lhr)) None None).
  destruct (returned (extract_and_check lhr w)) as [[[scores metrics] st]|] eqn:Hrun;
    [|vm_compute in Hrun; discriminate].
  destruct (report_written_whatever_the_verdict w lhr scores metrics st eq_refl Hrun eq_refl)
    as [Hrep _].
  eexists. split; [exact Hrep|].
  vm_compute in Hrun. inversion Hrun. split; reflexivity.
Defined.

Lemma expected_log_build_dir (w : World) d :
  expected_log (set_build_dir d w) = expected_log w.
Proof.
  unfold expected_log. simpl.
  destruct (lighthouse_report w) as [[e|lhr]|]; try reflexivity.
  destruct (scores_of lhr), (metrics_of lhr); try reflexivity.
  apply savePerformanceHistory_log_build_dir.
Qed.

(** X6.  The bundle-size check is informational: whatever the build
    directory holds (oversized bundles, nothing, an unreadable tree), the
    exit status, the HTML report and the history file of the run are the
    same. *)
Theorem bundle_check_is_informational (w : World) (d : option BuildDir) :
  exit_status (checkPerformance (set_build_dir d w)) = exit_status (checkPerformance w)
  /\ performance_report (checkPerformance (set_build_dir d w)).2
     = performance_report (checkPerformance w).2
  /\ performance_log (checkPerformance (set_build_dir d w)).2
     = performance_log (checkPerformance w).2.
Proof.
  rewrite !checkPerformance_log, expected_log_build_dir.
  destruct (checkPerformance_total (set_build_dir d w)) as (wf2 & -> & Hr2).
  destruct (checkPerformance_total w) as (wf & -> & Hr).
  simpl. rewrite Hr2, Hr. repeat split; reflexivity.
Qed.

(** X7.  A run never changes what it reads: the Lighthouse report and the
    build directory are the same afterwards, whatever happened, and a
    reports directory that exists is still there. *)
Theorem run_keeps_its_input (w : World) :
  lighthouse_report (checkPerformance w).2 = lighthouse_report w
  /\ build_dir (checkPerformance w).2 = build_dir w
  /\ (reports_dir w = true -> reports_dir (checkPerformance w).2 = true).
Proof.
  destruct (lighthouse_report w) as [[e|lhr]|] eqn:H.
  - rewrite (checkPerformance_garbled w e H). simpl. auto.
  - destruct (scores_of lhr) as [scores|] eqn:Hs;
      [destruct (metrics_of lhr) as [metrics|] eqn:Hm|].
    + destruct (checkPerformance_after_conclude w lhr scores metrics H Hs Hm)
        as (c0 & r & w' & c & Hc & ->).
      simpl. replace w' with (r, w').2 by reflexivity. rewrite <- Hc.
      destruct (conclude_frame scores metrics (verdict THRESHOLDS scores metrics)
                  (set_console (console w ++ c0) w)) as (_ & -> & -> & Hd).
      split; [exact H|]. split; [reflexivity|exact Hd].
    + rewrite (checkPerformance_incomplete w lhr H) by now right. simpl. auto.
    + rewrite (checkPerformance_incomplete w lhr H) by now left. simpl. auto.
  - rewrite (checkPerformance_missing w H). simpl. auto.
Qed.

Lemma unusable_report_is_fatal_witness :
  exit_status
    (checkPerformance
       (sample_world
          (Some (report_json (with_category "seo" (Js.of_Z 1)
                                {| categories := ∅; audits := audits sample_report |})))
          (Some (history_json full_history)) None))
  = Some 1.
Proof.
  destruct (unusable_report_is_fatal
              (sample_world
                 (Some (report_json (with_category "seo" (Js.of_Z 1)
                                       {| categories := ∅; audits := audits sample_report |})))
                 (Some (history_json full_history)) None)
              _ eq_refl) as [message ->]; [|reflexivity].
  right. eexists. split; [reflexivity|].
  left. exists "performance". split; [simpl; tauto|vm_compute; reflexivity].
Defined.

(** ** The bundle-size check *)

Lemma insert_by_size_perm (f : string * Z) (l : list (string * Z)) :
  insert_by_size f l ≡ₚ f :: l.
Proof.
  induction l as [|g l IH]; simpl; [reflexivity|].
  destruct (g.2 <=? f.2); [reflexivity|].
  rewrite IH. apply Permutation_swap.
Qed.

Lemma sort_by_size_perm (l : list (string * Z)) : sort_by_size l ≡ₚ l.
Proof.
  induction l as [|f l IH]; simpl; [reflexivity|].
  now rewrite insert_by_size_perm, IH.
Qed.

Lemma insert_by_size_sorted (f : string * Z) (l : list (string * Z)) :
  Sorted larger_first l -> Sorted larger_first (insert_by_size f l).
Proof.
  induction l as [|g l IH]; simpl; intros Hs.
  - repeat constructor.
  - destruct (g.2 <=? f.2) eqn:Hle.
    + constructor; [exact Hs|]. constructor. unfold larger_first. lia.
    + apply Sorted_inv in Hs as [Hs Hhd]. constructor; [now apply IH|].
      destruct l as [|h l]; simpl.
      * constructor. unfold larger_first. lia.
      * destruct (h.2 <=? f.2); constructor.
        -- unfold larger_first. lia.
        -- now apply HdRel_inv in Hhd.
Qed.

Lemma sort_by_size_sorted (l : list (string * Z)) :
  Sorted larger_first (sort_by_size l).
Proof.
  induction l as [|f l IH]; simpl; [constructor|].
  now apply insert_by_size_sorted.
Qed.

(** Files of one size stay in the order they were listed in. *)
Lemma insert_by_size_stable (z : Z) (f : string * Z) (l : list (string * Z)) :
  Sorted larger_first l ->
  List.filter (fun g => g.2 =? z) (insert_by_size f l)
  = List.filter (fun g => g.2 =? z) (f :: l).
Proof.
  induction l as [|g l IH]; intros Hs; [reflexivity|].
  cbn [insert_by_size]. destruct (g.2 <=? f.2) eqn:Hle; [reflexivity|].
  apply Sorted_inv in Hs as [Hs _].
  cbn [List.filter] in *. rewrite (IH Hs).
  destruct (f.2 =? z) eqn:Hf; [|reflexivity].
  destruct (g.2 =? z) eqn:Hg; [lia|reflexivity].
Qed.

Lemma sort_by_size_stable (z : Z) (l : list (string * Z)) :
  List.filter (fun g => g.2 =? z) (sort_by_size l)
  = List.filter (fun g => g.2 =? z) l.
Proof.
  induction l as [|f l IH]; [reflexivity|].
  cbn [sort_by_size foldr]. fold (sort_by_size l).
  rewrite insert_by_size_stable by apply sort_by_size_sorted.
  cbn [List.filter]. now rewrite IH.
Qed.

Lemma total_size_perm (l l' : list (string * Z)) :
  l ≡ₚ l' ->
  forall a, foldl (fun sum f => sum + f.2) a l = foldl (fun sum f => sum + f.2) a l'.
Proof.
  induction 1 as [|x l l' _ IH|x y l|l l' l'' _ IH1 _ IH2]; intros a; simpl.
  - reflexivity.
  - apply IH.
  - f_equal. lia.
  - now rewrite IH1.
Qed.

(** The bundle check on a directory that can be listed, in closed form. *)
Lemma checkBundleSize_files (w : World) (listing : list (string * Z)) :
  build_dir w = Some (dist_files listing) ->
  let files := sort_by_size (filter is_bundle listing) in
  let totalSize := foldl (fun sum f => sum + f.2) 0 files in
  checkBundleSize w
  = (Return tt,
     set_console
       (console w ++ [(Log, BundleHeader); (Log, Rule)] ++ map bundle_line files
        ++ [(Log, Rule);
            (Log, BundleTotal (totalSize <=? maxBundleSize * 3) totalSize (maxBundleSize * 3))])
       w).
Proof.
  intros H files totalSize.
  unfold checkBundleSize, mbind at 1, M_bind at 1, get. rewrite H.
  unfold try_catch, mbind, M_bind. rewrite !console_log_run. simpl.
  fold is_bundle. fold files.
  rewrite (forEach_log (fun f => BundleLine (f.2 <=? maxBundleSize) f.1 f.2)). simpl.
  fold totalSize. unfold bundle_line. now rewrite <- !app_assoc.
Qed.

(** X8.  The bundle check never throws and never exits, and changes nothing
    but the console.  With no build directory it prints one warning; with
    one that cannot be read, the header and then a warning; with one that
    holds no [.js] or [.css] file, a total of 0 within the limit. *)
Theorem bundle_check_never_fails (w : World) :
  exists c,
    checkBundleSize w = (Return tt, set_console (console w ++ c) w)
    /\ (build_dir w = None -> c = [(Warn, BundleDirMissing)])
    /\ (forall e, build_dir w = Some (dist_unreadable e) ->
        c = [(Log, BundleHeader); (Log, Rule); (Warn, BundleWarning e)])
    /\ (forall listing, build_dir w = Some (dist_files listing) ->
        (forall f, In f listing -> is_bundle f = false) ->
        c = [(Log, BundleHeader); (Log, Rule); (Log, Rule);
             (Log, BundleTotal true 0 (maxBundleSize * 3))]).
Proof.
  destruct (build_dir w) as [[e|listing]|] eqn:H.
  - exists [(Log, BundleHeader); (Log, Rule); (Warn, BundleWarning e)].
    split; [|split; [discriminate|split; [intros e' He; now inversion He|discriminate]]].
    unfold checkBundleSize, mbind at 1, M_bind at 1, get. rewrite H.
    unfold try_catch, mbind, M_bind. rewrite !console_log_run. simpl.
    unfold console_warn, console_emit, modify. simpl. now rewrite <- !app_assoc.
  - eexists. split; [apply (checkBundleSize_files w listing H)|].
    split; [discriminate|split; [discriminate|]].
    intros l Hl Hnone. inversion Hl; subst l.
    assert (Hf : filter is_bundle listing = []).
    { clear H Hl. induction listing as [|f l IH]; [reflexivity|].
      rewrite filter_cons_False; [apply IH; intros g Hg; apply Hnone; now right|].
      rewrite (Hnone f) by now left. exact id. }
    rewrite Hf. reflexivity.
  - exists [(Warn, BundleDirMissing)].
    split; [|split; [reflexivity|split; discriminate]].
    unfold checkBundleSize, mbind at 1, M_bind at 1, get. rewrite H. reflexivity.
Qed.

(** X9.  With a build directory that can be listed, the check prints one
    line per file whose name ends in [.js] or [.css], each such file
    exactly once, largest first, files of equal size in listing order; a
    line is marked within the limit exactly when the size is at most
    256000; the total that follows is the sum of those files' sizes,
    marked within the limit exactly when it is at most 768000. *)
Theorem bundle_lines_largest_first (w : World) (listing : list (string * Z)) :
  build_dir w = Some (dist_files listing) ->
  let total := foldl (fun sum f => sum + f.2) 0 (filter is_bundle listing) in
  exists files,
    checkBundleSize w
    = (Return tt,
       set_console
         (console w ++ [(Log, BundleHeader); (Log, Rule)]
          ++ map (fun f => (Log, BundleLine (f.2 <=? 256000) f.1 f.2)) files
          ++ [(Log, Rule); (Log, BundleTotal (total <=? 768000) total 768000)])
         w)
    /\ files ≡ₚ filter is_bundle listing
    /\ Sorted larger_first files
    /\ (forall z, List.filter (fun g => g.2 =? z) files
                  = List.filter (fun g => g.2 =? z) (filter is_bundle listing))
    /\ (forall f, In f files <-> In f listing /\ is_bundle f = true).
Proof.
  intros H total.
  exists (sort_by_size (filter is_bundle listing)).
  pose proof (sort_by_size_perm (filter is_bundle listing)) as Hperm.
  split.
  - rewrite (checkBundleSize_files w listing H). cbv zeta.
    rewrite (total_size_perm _ _ Hperm 0). reflexivity.
  - split; [exact Hperm|]. split; [apply sort_by_size_sorted|].
    split; [intros z; apply sort_by_size_stable|].
    intros f. rewrite <- !list_elem_of_In, Hperm, list_elem_of_filter.
    rewrite Is_true_true. tauto.
Qed.

Lemma bundle_lines_largest_first_witness :
  exists files,
    (forall f, In f files <-> In f sample_dist /\ is_bundle f = true)
    /\ Sorted larger_first files
    /\ length files = 3%nat.
Proof.
  destruct (bundle_lines_largest_first
              (set_build_dir (Some (dist_files sample_dist)) sample_start)
              sample_dist eq_refl) as (files & _ & Hperm & Hsorted & _ & Hin).
  exists files. split; [exact Hin|]. split; [exact Hsorted|].
  rewrite Hperm. reflexivity.
Defined.

(** ** The two loops over any threshold table *)

(** X10.  The guard [if (!threshold) return] is a truthiness test, so a
    metric whose threshold is [0], [-0] or NaN is skipped exactly like one
    with no threshold at all: no line, no record, no effect on the
    aggregate, whatever its value. *)
Theorem falsy_threshold_skips_metric (T : gmap string number)
    (scores before after : Entries) (name : string) (v t : number)
    (st : Locals) (w : World) :
  T !! name = Some t ->
  Js.truthy t = false ->
  check_metric T (name, v) st w = (Return st, w)
  /\ check_thresholds T scores (before ++ (name, v) :: after) w
     = check_thresholds T scores (before ++ after) w.
Proof.
  intros H Ht.
  assert (Hc : metric_checked T (name, v) = false).
  { unfold metric_checked; simpl. now rewrite (property_own T name t H). }
  split.
  - rewrite check_metric_run. now rewrite Hc.
  - rewrite !check_thresholds_run. unfold verdict, verdict_lines.
    rewrite !List.filter_app. cbn [List.filter]. now rewrite Hc.
Qed.

Lemma falsy_threshold_skips_metric_witness :
  check_metric (<["cumulative-layout-shift" := Js.of_Z 0]> THRESHOLDS)
    ("cumulative-layout-shift", Js.of_Z 5) sample_locals sample_start
  = (Return sample_locals, sample_start).
Proof.
  apply (falsy_threshold_skips_metric
           (<["cumulative-layout-shift" := Js.of_Z 0]> THRESHOLDS) [] [] []
           "cumulative-layout-shift" (Js.of_Z 5) (Js.of_Z 0) sample_locals sample_start);
    [vm_compute; reflexivity|reflexivity].
Defined.

(** X11.  The score loop has no such guard.  A category with no own entry
    in the table is compared with what [THRESHOLDS[category]] reads
    (undefined, or the member inherited from [Object.prototype] for a name
    such as [toString]), which is NaN as a number: whatever the score, the
    line is printed with the failed mark, the record is pushed as passed
    with that read value as its threshold, and the aggregate flag is left
    as it was. *)
Theorem unthresholded_score_passes (T : gmap string number)
    (cat : string) (s : number) (st : Locals) (w : World) :
  T !! cat = None ->
  check_score T (cat, s) st w
  = (Return {| passed := passed st;
               results := results st ++
                 [ {| type := Score; category := cat; value := s;
                      threshold := property T cat; status := Passed |} ] |},
     set_console (console w ++ [(Log, ScoreLine false cat s (property T cat))]) w)
  /\ (cat ∉ Object_prototype -> property T cat = undefined)
  /\ (cat ∈ Object_prototype -> property T cat = inherited cat).
Proof.
  intros H. split; [|split; [now apply property_undefined|now apply property_inherited]].
  rewrite check_score_run.
  unfold score_result, score_line, score_failed; simpl.
  assert (Hn : ToNumber (property T cat) = Js.NaN).
  { unfold property. rewrite H. now destruct (bool_decide _). }
  rewrite Hn.
  assert (Hlt : Js.lt s Js.NaN = false).
  { unfold Js.lt, Js.IsLessThan. now destruct s. }
  assert (Hge : Js.ge s Js.NaN = false).
  { unfold Js.ge, Js.IsLessThan. now destruct s. }
  now rewrite Hlt, Hge, andb_true_r.
Qed.

Lemma unthresholded_score_passes_witness :
  returned (check_score THRESHOLDS ("pwa", Js.of_Z 0)
              {| passed := true; results := [] |} sample_start)
  = Some {| passed := true;
            results := [ {| type := Score; category := "pwa"; value := Js.of_Z 0;
                            threshold := undefined; status := Passed |} ] |}.
Proof.
  destruct (unthresholded_score_passes THRESHOLDS "pwa" (Js.of_Z 0)
              {| passed := true; results := [] |} sample_start) as (Hrun & Hundef & _);
    [vm_compute; reflexivity|].
  rewrite Hrun, Hundef; [reflexivity|].
  apply (proj1 (bool_decide_eq_false _)). vm_compute. reflexivity.
Defined.

(** X12.  For numbers, what is printed and what is recorded agree: the line
    of a score or of a checked metric carries the passed mark exactly when
    the record pushed with it is a passed one, and the aggregate flag is
    cleared exactly when it is not. *)
Theorem printed_mark_matches_record (T : gmap string number)
    (name : string) (x t : number) (st : Locals) (w : World) :
  T !! name = Some t ->
  Js.is_nan x = false ->
  Js.is_nan t = false ->
  (exists ok r,
      check_score T (name, x) st w
      = (Return {| passed := passed st && ok; results := results st ++ [r] |},
         set_console (console w ++ [(Log, ScoreLine ok name x (num t))]) w)
      /\ (ok = true <-> status r = Passed))
  /\ (Js.truthy t = true ->
      exists ok r unit',
        check_metric T (name, x) st w
        = (Return {| passed := passed st && ok; results := results st ++ [r] |},
           set_console
             (console w ++ [(Log, MetricLine ok name (Js.Math_round x) unit' (num t))]) w)
        /\ (ok = true <-> status r = Passed)).
Proof.
  intros H Hx Ht. split.
  - exists (Js.ge x t), (score_result T (name, x)).
    rewrite check_score_run.
    unfold score_line, score_result, score_failed; simpl.
    rewrite (property_own T name t H); simpl.
    rewrite (ge_negb_lt x t Hx Ht).
    split; [reflexivity|]. destruct (Js.lt x t); simpl; split; congruence.
  - intros Htr. exists (Js.le x t), (metric_result T (name, x)). eexists.
    rewrite check_metric_run.
    unfold metric_checked, metric_line, metric_result, metric_failed; simpl.
    rewrite (property_own T name t H); simpl. rewrite Htr, (le_negb_gt x t Hx Ht).
    split; [reflexivity|]. destruct (Js.gt x t); simpl; split; congruence.
Qed.

Lemma printed_mark_matches_record_witness :
  exists ok r,
    check_score THRESHOLDS ("seo", Js.of_Z 89) sample_locals sample_start
    = (Return {| passed := passed sample_locals && ok;
                 results := results sample_locals ++ [r] |},
       set_console
         (console sample_start ++ [(Log, ScoreLine ok "seo" (Js.of_Z 89) (num (Js.of_Z 90)))])
         sample_start)
    /\ (ok = true <-> status r = Passed).
Proof.
  apply (printed_mark_matches_record THRESHOLDS "seo" (Js.of_Z 89) (Js.of_Z 90)
           sample_locals sample_start);
    [vm_compute; reflexivity|reflexivity|reflexivity].
Defined.

(** ** The history file *)

(** X13.  A save that goes through on a log of fewer than 50 entries (or
    with no history file yet) evicts nothing: the file holds the prior log
    followed by the new entry.  On a log of 50 entries or more, however
    long, it holds exactly 50: the last 49 prior entries followed by the
    new one. *)
Theorem history_append_cases (w : World) (scores metrics : Entries)
    (prior : list HistoryData) :
  performance_log w = None /\ prior = [] \/ performance_log w = Some (history_json prior) ->
  reports_dir w = true \/ mkdir_error w = None ->
  history_write_error w = None ->
  let new := history_entry w scores metrics in
  let after := performance_log (savePerformanceHistory scores metrics w).2 in
  ((length prior < 50)%nat -> after = Some (history_json (prior ++ [new])))
  /\ ((50 <= length prior)%nat ->
      after = Some (history_json (drop (length prior - 49) prior ++ [new]))
      /\ length (drop (length prior - 49) prior ++ [new]) = 50%nat).
Proof.
  intros Hpl Hdir Hwr new after. subst after.
  rewrite (savePerformanceHistory_saved scores metrics w prior Hpl Hdir Hwr).
  fold new. rewrite append_capped_suffix. split; intros Hlen.
  - replace (length prior + 1 - 50)%nat with 0%nat by lia. reflexivity.
  - replace (length prior + 1 - 50)%nat with (length prior - 49)%nat by lia.
    rewrite drop_app_le by lia. split; [reflexivity|].
    rewrite length_app, length_drop. simpl. lia.
Qed.

Lemma history_append_cases_witness :
  performance_log (savePerformanceHistory sample_scores sample_metrics sample_start).2
  = Some (history_json [history_entry sample_start sample_scores sample_metrics]).
Proof.
  apply (proj1 (history_append_cases sample_start sample_scores sample_metrics []
                  (or_introl (conj eq_refl eq_refl)) (or_introl eq_refl) eq_refl)).
  simpl. lia.
Defined.

(** X14.  Saving the history touches nothing but the history file, the
    console (one line) and the reports directory, which it can create but
    never removes.  The directory stays created when the write that
    follows fails. *)
Theorem save_touches_only_history (scores metrics : Entries) (w : World) :
  exists ev w',
    savePerformanceHistory scores metrics w = (Return tt, w')
    /\ console w' = console w ++ [ev]
    /\ lighthouse_report w' = lighthouse_report w
    /\ performance_report w' = performance_report w
    /\ build_dir w' = build_dir w
    /\ (reports_dir w = true -> reports_dir w' = true)
    /\ (forall e, reports_dir w = false -> mkdir_error w = None ->
        (forall m, performance_log w <> Some (history_garbled m)) ->
        history_write_error w = Some e ->
        reports_dir w' = true
        /\ ev = (Warn, HistoryWarning e)
        /\ performance_log w' = performance_log w).
Proof.
  destruct w as [lr pl pr rd bd sha ref clk mke hwe rwe con].
  unfold savePerformanceHistory; unfold_M; simpl.
  destruct pl as [[e|h]|]; simpl;
    [ | destruct rd; simpl; [|destruct mke as [e|]; simpl]; destruct hwe as [e'|]; simpl
      | destruct rd; simpl; [|destruct mke as [e|]; simpl]; destruct hwe as [e'|]; simpl ];
    eexists _, _; (split; [reflexivity|]); simpl;
    do 4 (split; [reflexivity|]);
    (split; [intros Ht; first [reflexivity|exact Ht|discriminate Ht]|]);
    intros e0 Hrd Hmk Hg Hw;
    first [ discriminate Hrd | discriminate Hmk | discriminate Hw
          | exfalso; exact (Hg _ eq_refl)
          | inversion Hw; repeat split; reflexivity ].
Qed.

(** X15.  Generating the HTML report either goes through or throws before
    anything is printed.  When the directory is there or can be made and
    the write goes through, the file holds exactly the records, scores and
    metrics it was given, the directory exists and one line is printed;
    otherwise it throws and the console is as it was.  The history file is
    untouched either way. *)
Theorem report_generation_outcome
    (rs : list Result) (scores metrics : Entries) (w : World) :
  let r := generatePerformanceReport rs scores metrics w in
  performance_log r.2 = performance_log w
  /\ (report_writable w = true ->
      r.1 = Return tt
      /\ performance_report r.2
         = Some {| generated_on := clock w; detailed_results := rs;
                   chart_scores := scores; chart_metrics := metrics |}
      /\ console r.2 = console w ++ [(Log, ReportGenerated)]
      /\ reports_dir r.2 = true)
  /\ (report_writable w = false ->
      (exists e, r.1 = Throw e) /\ console r.2 = console w).
Proof.
  intros r. subst r. destruct (report_writable w) eqn:Hw.
  - rewrite (generatePerformanceReport_ok rs scores metrics w Hw). simpl.
    split; [reflexivity|]. split; [|discriminate]. intros _. repeat split.
  - destruct (generatePerformanceReport_throws rs scores metrics w Hw) as (e & d & ->).
    simpl. split; [reflexivity|]. split; [discriminate|]. intros _.
    split; [eauto|reflexivity].
Qed.

(** X16.  The entry a save appends is the last of the file and carries the
    clock's timestamp and the commit and branch of the environment, each
    replaced by ["local"] when the variable is unset or empty. *)
Theorem saved_entry_identifiers (w : World) (s m : Entries)
    (prior : list HistoryData) :
  performance_log w = None /\ prior = [] \/ performance_log w = Some (history_json prior) ->
  reports_dir w = true \/ mkdir_error w = None ->
  history_write_error w = None ->
  exists log e,
    performance_log (savePerformanceHistory s m w).2 = Some (history_json log)
    /\ last log = Some e
    /\ timestamp e = clock w
    /\ (GITHUB_SHA w = None \/ GITHUB_SHA w = Some "" -> commit e = "local")
    /\ (forall sha, GITHUB_SHA w = Some sha -> sha <> "" -> commit e = sha)
    /\ (GITHUB_REF_NAME w = None \/ GITHUB_REF_NAME w = Some "" -> branch e = "local")
    /\ (forall ref, GITHUB_REF_NAME w = Some ref -> ref <> "" -> branch e = ref).
Proof.
  intros Hpl Hdir Hwr.
  exists (append_capped prior (history_entry w s m)), (history_entry w s m).
  split; [now apply savePerformanceHistory_saved|]. split.
  { destruct (append_capped_last prior (history_entry w s m)) as [front ->].
    apply last_snoc. }
  split; [reflexivity|]. simpl.
  assert (Hlocal : forall v, v = None \/ v = Some "" -> or_local v = "local").
  { intros v [->| ->]; reflexivity. }
  assert (Hset : forall v x, v = Some x -> x <> "" -> or_local v = x).
  { intros v x -> Hx. unfold or_local.
    destruct (String.eqb_spec x ""); [contradiction|reflexivity]. }
  repeat split; auto.
Qed.

Lemma saved_entry_identifiers_witness :
  exists log e,
    performance_log (savePerformanceHistory sample_scores sample_metrics sample_full).2
    = Some (history_json log)
    /\ last log = Some e
    /\ commit e = "local" /\ branch e = "main".
Proof.
  destruct (saved_entry_identifiers sample_full sample_scores sample_metrics full_history)
    as (log & e & Hlog & Hlast & _ & Hsha & _ & _ & Hbranch);
    [right; reflexivity|left; reflexivity|reflexivity|].
  exists log, e. split; [exact Hlog|]. split; [exact Hlast|].
  split; [apply Hsha; now left|apply (Hbranch "main"); [reflexivity|discriminate]].
Defined.

(** ** What the evaluation reads *)

(** X17.  The evaluation reads four categories and six audits and nothing
    else: adding or replacing any other audit or category changes neither
    the scores, the metrics, the records nor the output.  In particular an
    audit named [first-input-delay] is never read, since that metric comes
    from [max-potential-fid]. *)
Theorem unread_fields_are_ignored (lhr : Lhr) (key : string) (v : number) (w : World) :
  (~ In key (map snd metric_audits) ->
   extract_and_check (with_audit key v lhr) w = extract_and_check lhr w)
  /\ (~ In key score_categories ->
      extract_and_check (with_category key v lhr) w = extract_and_check lhr w).
Proof.
  split; intros Hkey; rewrite !extract_and_check_run.
  - assert (Hm : metrics_of (with_audit key v lhr) = metrics_of lhr).
    { unfold metrics_of, with_audit; simpl.
      rewrite !lookup_insert_ne by (intros ->; apply Hkey; simpl; tauto).
      reflexivity. }
    now rewrite Hm.
  - assert (Hs : scores_of (with_category key v lhr) = scores_of lhr).
    { unfold scores_of, with_category; simpl.
      rewrite !lookup_insert_ne by (intros ->; apply Hkey; simpl; tauto).
      reflexivity. }
    now rewrite Hs.
Qed.

Lemma unread_fields_are_ignored_witness :
  extract_and_check (with_audit "first-input-delay" (Js.of_Z 9999) sample_report) sample_start
  = extract_and_check sample_report sample_start.
Proof.
  apply (proj1 (unread_fields_are_ignored sample_report "first-input-delay"
                  (Js.of_Z 9999) sample_start)).
  simpl. intros [H|[H|[H|[H|[H|[H|[]]]]]]]; discriminate H.
Defined.

(** X18.  A category score or an audit value that is NaN (the field is
    absent or not numeric) never fails a run: its record is pushed as
    passed, with NaN as its stored value, while the line printed for it
    carries the failed mark. *)
Theorem nan_is_recorded_passed (lhr : Lhr) (w : World) scores metrics st :
  returned (extract_and_check lhr w) = Some (scores, metrics, st) ->
  (forall i cat,
      score_categories !! i = Some cat ->
      categories lhr !! cat = Some Js.NaN ->
      results st !! i
      = Some {| type := Score; category := cat; value := Js.NaN;
                threshold := num (Js.of_Z 90); status := Passed |}
      /\ In (Log, ScoreLine false cat Js.NaN (num (Js.of_Z 90)))
            (console (extract_and_check lhr w).2))
  /\ (forall i name audit,
        metric_audits !! i = Some (name, audit) ->
        audits lhr !! audit = Some Js.NaN ->
        exists t unit',
          THRESHOLDS !! name = Some t
          /\ results st !! (4 + i)%nat
             = Some {| type := Metric; category := name; value := Js.NaN;
                       threshold := num t; status := Passed |}
          /\ In (Log, MetricLine false name Js.NaN unit' (num t))
                (console (extract_and_check lhr w).2)).
Proof.
  intros Hrun.
  destruct (extract_and_check_inv lhr w scores metrics st Hrun) as (Hs & Hm & Hst).
  assert (Hcon : console (extract_and_check lhr w).2
                 = console w ++ verdict_lines THRESHOLDS scores metrics).
  { rewrite extract_and_check_run, Hs, Hm. reflexivity. }
  rewrite Hcon. unfold verdict_lines.
  rewrite (filter_checked_extracted lhr metrics Hm).
  split.
  - intros i cat Hi Hv.
    destruct (score_record lhr w scores metrics st i cat Js.NaN Hrun Hi Hv) as [Hsc Hr].
    pose proof (THRESHOLDS_score i cat Hi) as Ht.
    change (Js.Math_round (Js.mul Js.NaN (Js.of_Z 100))) with Js.NaN in *.
    assert (Hlt : Js.lt Js.NaN (Js.of_Z 90) = false) by reflexivity.
    assert (Hge : Js.ge Js.NaN (Js.of_Z 90) = false) by reflexivity.
    split.
    + rewrite Hr. unfold score_result, score_failed; simpl. rewrite (property_own _ _ _ Ht); simpl.
      now rewrite ?Hlt.
    + rewrite !in_app_iff. right. right. left.
      apply in_map_iff. exists (cat, Js.NaN). split.
      * unfold score_line; simpl. rewrite (property_own _ _ _ Ht); simpl. now rewrite ?Hge.
      * apply list_elem_of_In, list_elem_of_lookup. eauto.
  - intros i name audit Hi Hv.
    destruct (metric_record lhr w scores metrics st i name audit Js.NaN Hrun Hi Hv)
      as (t & Ht & Htn & Hmi & Hr).
    exists t, (if includes name "shift" then "" else "ms"). split; [exact Ht|].
    assert (Hgt : Js.gt Js.NaN t = false).
    { unfold Js.gt, Js.IsLessThan. now destruct t. }
    assert (Hle : Js.le Js.NaN t = false).
    { unfold Js.le, Js.IsLessThan. now destruct t. }
    split.
    + rewrite Hr. unfold metric_result, metric_failed; simpl. rewrite (property_own _ _ _ Ht); simpl.
      now rewrite ?Hgt.
    + rewrite !in_app_iff. right. right. right. right.
      apply in_map_iff. exists (name, Js.NaN). split.
      * unfold metric_line; simpl. rewrite (property_own _ _ _ Ht); simpl. now rewrite ?Hle.
      * apply list_elem_of_In, list_elem_of_lookup. eauto.
Qed.

Lemma nan_is_recorded_passed_witness :
  exit_status
    (checkPerformance
       (sample_world
          (Some (report_json (with_audit "speed-index" Js.NaN sample_report))) None None))
  = Some 0
  /\ exists r,
       results (verdict THRESHOLDS sample_scores
                  (<[4%nat := ("speed-index", Js.NaN)]> sample_metrics)) !! 8%nat = Some r
       /\ status r = Passed.
Proof.
  split; [vm_compute; reflexivity|].
  destruct (nan_is_recorded_passed
              (with_audit "speed-index" Js.NaN sample_report) sample_start
              sample_scores (<[4%nat := ("speed-index", Js.NaN)]> sample_metrics)
              (verdict THRESHOLDS sample_scores
                 (<[4%nat := ("speed-index", Js.NaN)]> sample_metrics)))
    as [_ Hmetric]; [vm_compute; reflexivity|].
  destruct (Hmetric 4%nat "speed-index" "speed-index" eq_refl)
    as (t & u & _ & Hr & _); [vm_compute; reflexivity|].
  eexists. split; [exact Hr|reflexivity].
Defined.

(** X19.  The cap is an invariant of whole runs: if the history file holds
    at most 50 entries (or is absent, or does not parse), it still does
    after a run, whichever way the run ends. *)
Theorem run_keeps_history_within_cap (w : World) :
  within_cap (performance_log w) ->
  within_cap (performance_log (checkPerformance w).2).
Proof.
  intros Hcap. rewrite checkPerformance_log. unfold expected_log.
  destruct (lighthouse_report w) as [[e|lhr]|]; try exact Hcap.
  destruct (scores_of lhr) as [scores|]; try exact Hcap.
  destruct (metrics_of lhr) as [metrics|]; try exact Hcap.
  destruct (savePerformanceHistory_log scores metrics w) as [->|(l & _ & ->)];
    [exact Hcap|].
  simpl. apply append_capped_length.
Qed.

Lemma run_keeps_history_within_cap_witness :
  within_cap (performance_log (checkPerformance sample_full).2).
Proof.
  apply (run_keeps_history_within_cap sample_full).
  simpl. lia.
Defined.

(** ** The history save within a run *)

(** With the history file absent or well formed, the directory there or
    creatable and the write going through, the save returns having written
    the appended, capped log and printed the confirmation. *)
Lemma savePerformanceHistory_healthy (scores metrics : Entries) (w : World) prior :
  performance_log w = None /\ prior = [] \/ performance_log w = Some (history_json prior) ->
  reports_dir w = true \/ mkdir_error w = None ->
  history_write_error w = None ->
  savePerformanceHistory scores metrics w
  = (Return tt,
     set_console (console w ++ [(Log, HistoryUpdated)])
       (set_performance_log
          (Some (history_json (append_capped prior (history_entry w scores metrics))))
          (set_reports_dir true w))).
Proof.
  destruct w as [lr pl pr rd bd sha ref clk mke hwe rwe con]; simpl.
  intros Hpl Hdir ->.
  unfold savePerformanceHistory; unfold_M; simpl.
  destruct Hpl as [ [-> ->] | -> ]; simpl;
    (destruct rd; simpl; [reflexivity|]);
    (destruct Hdir as [ | -> ]; [discriminate|reflexivity]).
Qed.

(** The entry the script builds is a written entry of itself. *)
Lemma history_entry_written (w : World) (s m : Entries) :
  written_entry w s m (history_entry w s m).
Proof. repeat split. Qed.

(** What follows the save in a run only adds lines to the console. *)
Lemma conclude_console (scores metrics : Entries) (st : Locals) (w : World) :
  exists l,
    console (conclude scores metrics st w).2
    = console (savePerformanceHistory scores metrics w).2 ++ l.
Proof.
  destruct (savePerformanceHistory_run scores metrics w) as (c & h & d & Hs & Hd & _).
  pose proof (report_writable_after_save w c h d Hd) as Hw.
  rewrite Hs.
  set (w1 := set_console c (set_performance_log h (set_reports_dir d w))) in *.
  destruct (checkBundleSize_run w1) as [c2 Hb].
  set (w2 := set_console (console w1 ++ c2) w1) in *.
  unfold conclude.
  rewrite (run_bind_Return _ _ _ _ _ Hs), (run_bind_Return _ _ _ _ _ Hb).
  rewrite (run_bind_Return _ _ _ _ _ (console_log_run DoubleRule w2)).
  destruct (report_writable w1) eqn:Hrw.
  - destruct (passed st);
      rewrite ?(run_bind_Return _ _ _ _ _ (console_log_run _ _));
      erewrite run_bind_Return by (apply generatePerformanceReport_ok; exact Hrw);
      simpl; rewrite <- !app_assoc; eexists; reflexivity.
  - destruct (passed st);
      rewrite ?(run_bind_Return _ _ _ _ _ (console_log_run _ _));
      match goal with
      | |- context [(generatePerformanceReport ?rs ?s ?m ≫= _) ?w0] =>
          destruct (generatePerformanceReport_throws rs s m w0 Hrw) as (e & d' & Hg)
      end;
      rewrite (run_bind_Throw _ _ _ _ _ Hg); simpl;
      rewrite <- !app_assoc; eexists; reflexivity.
Qed.

(** The console a run leaves extends the console the save left, the save
    having started from the console of the evaluation. *)
Lemma checkPerformance_console_save (w : World) (lhr : Lhr) (scores metrics : Entries) :
  lighthouse_report w = Some (report_json lhr) ->
  scores_of lhr = Some scores ->
  metrics_of lhr = Some metrics ->
  exists c0 l,
    console (checkPerformance w).2
    = console (savePerformanceHistory scores metrics
                 (set_console (console w ++ c0) w)).2 ++ l.
Proof.
  intros H Hs Hm. rewrite (checkPerformance_parsed w lhr H).
  unfold try_catch, mbind at 1, M_bind at 1.
  rewrite extract_and_check_run, Hs, Hm.
  exists ([(Log, Analyzing)] ++ verdict_lines THRESHOLDS scores metrics).
  match goal with
  | |- context [conclude _ _ _ ?w1] =>
      replace w1
        with (set_console
                (console w ++ [(Log, Analyzing)] ++ verdict_lines THRESHOLDS scores metrics) w)
        by (unfold set_console; simpl; now rewrite <- app_assoc)
  end.
  match goal with
  | |- context [conclude ?s ?m ?st ?w1] =>
      destruct (conclude_console s m st w1) as [l Hl];
      destruct (conclude s m st w1) as [[[]|e|c] w'] eqn:Hc
  end; simpl in Hl |- *; rewrite Hl.
  - exists l. reflexivity.
  - rewrite <- app_assoc. eexists. reflexivity.
  - exists l. reflexivity.
Qed.

(** C6.  Saving the history always returns: it never throws and never
    exits, and prints either the confirmation or one warning.  When
    nothing fails it really appends: the file holds the capped log ending
    in this run's entry.  A malformed history document, or a write that
    fails, yields the warning only.  Every run whose evaluation completes
    performs the save, whatever the verdict: the history file it leaves is
    the one the save leaves, the outcome of the save is on the console,
    and with a working file system the entry is appended whether the
    checks passed or failed.  The exit status and the generated report do
    not depend on the history file or on whether writing it fails. *)
Theorem history_failure_is_advisory :
  (forall (scores metrics : Entries) (w : World),
      exists w',
        savePerformanceHistory scores metrics w = (Return tt, w')
        /\ (console w' = console w ++ [(Log, HistoryUpdated)]
            \/ exists e, console w' = console w ++ [(Warn, HistoryWarning e)]))
  /\ (forall (scores metrics : Entries) (w : World) (prior : list HistoryData),
        performance_log w = None /\ prior = []
        \/ performance_log w = Some (history_json prior) ->
        reports_dir w = true \/ mkdir_error w = None ->
        history_write_error w = None ->
        exists w' e,
          savePerformanceHistory scores metrics w = (Return tt, w')
          /\ performance_log w' = Some (history_json (append_capped prior e))
          /\ written_entry w scores metrics e
          /\ console w' = console w ++ [(Log, HistoryUpdated)])
  /\ (forall (scores metrics : Entries) (w : World) (e : string),
        performance_log w = Some (history_garbled e) ->
        savePerformanceHistory scores metrics w
        = (Return tt, set_console (console w ++ [(Warn, HistoryWarning e)]) w))
  /\ (forall (scores metrics : Entries) (w : World) (e : string),
        history_write_error w = Some e ->
        exists e' w',
          savePerformanceHistory scores metrics w = (Return tt, w')
          /\ console w' = console w ++ [(Warn, HistoryWarning e')])
  /\ (forall (w : World) (lhr : Lhr) scores metrics st,
        lighthouse_report w = Some (report_json lhr) ->
        returned (extract_and_check lhr w) = Some (scores, metrics, st) ->
        performance_log (checkPerformance w).2
        = performance_log (savePerformanceHistory scores metrics w).2
        /\ (exists ev, In ev (console (checkPerformance w).2)
                       /\ (ev = (Log, HistoryUpdated)
                           \/ exists e, ev = (Warn, HistoryWarning e)))
        /\ (forall prior,
              performance_log w = None /\ prior = []
              \/ performance_log w = Some (history_json prior) ->
              reports_dir w = true \/ mkdir_error w = None ->
              history_write_error w = None ->
              exists e,
                performance_log (checkPerformance w).2
                = Some (history_json (append_capped prior e))
                /\ written_entry w scores metrics e
                /\ In (Log, HistoryUpdated) (console (checkPerformance w).2)))
  /\ (forall (w : World) (log : option HistoryFile) (fault : option string),
        let w2 := set_history_write_error fault (set_performance_log log w) in
        exit_status (checkPerformance w2) = exit_status (checkPerformance w)
        /\ performance_report (checkPerformance w2).2
           = performance_report (checkPerformance w).2).
Proof.
  split; [|split; [|split; [|split; [|split]]]].
  - intros scores metrics w.
    destruct (savePerformanceHistory_run scores metrics w) as (c & h & d & -> & _ & Hc).
    eexists. split; [reflexivity|]. simpl.
    destruct Hc as [->|(e & -> & _)]; [now left|right; eauto].
  - intros scores metrics w prior Hpl Hdir Hwr.
    rewrite (savePerformanceHistory_healthy scores metrics w prior Hpl Hdir Hwr).
    eexists _, (history_entry w scores metrics). split; [reflexivity|].
    split; [reflexivity|]. split; [apply history_entry_written|reflexivity].
  - intros scores metrics w e H.
    destruct w as [lr pl pr rd bd sha ref clk mke hwe rwe con]; simpl in H; subst pl.
    reflexivity.
  - intros scores metrics w e H.
    destruct w as [lr pl pr rd bd sha ref clk mke hwe rwe con]; simpl in H; subst hwe.
    unfold savePerformanceHistory; unfold_M; simpl.
    destruct pl as [[e0|h]|]; simpl;
      [ | destruct rd; simpl; [|destruct mke as [e1|]; simpl]
        | destruct rd; simpl; [|destruct mke as [e1|]; simpl] ];
      eexists _, _; (split; [reflexivity|]); reflexivity.
  - intros w lhr scores metrics st Hfile Hrun.
    destruct (extract_and_check_inv lhr w scores metrics st Hrun) as (Hs & Hm & ->).
    assert (Hlog : performance_log (checkPerformance w).2
                   = performance_log (savePerformanceHistory scores metrics w).2).
    { rewrite checkPerformance_log. unfold expected_log. now rewrite Hfile, Hs, Hm. }
    split; [exact Hlog|]. split.
    + destruct (checkPerformance_evaluated w lhr scores metrics Hfile Hs Hm)
        as (wf & -> & _ & _ & _ & Hev).
      exact Hev.
    + intros prior Hpl Hdir Hwr. exists (history_entry w scores metrics).
      split; [|split; [apply history_entry_written|]].
      * rewrite Hlog. now apply savePerformanceHistory_saved.
      * destruct (checkPerformance_console_save w lhr scores metrics Hfile Hs Hm)
          as (c0 & l & ->).
        rewrite (savePerformanceHistory_healthy scores metrics _ prior); try assumption.
        simpl. rewrite !in_app_iff. left. right. now left.
  - intros w log fault w2.
    destruct (checkPerformance_total w2) as (wf2 & -> & Hr2).
    destruct (checkPerformance_total w) as (wf & -> & Hr).
    split; [reflexivity|]. simpl. now rewrite Hr2, Hr.
Qed.

Lemma history_failure_is_advisory_witness :
  exit_status
    (checkPerformance
       (set_history_write_error (Some "ENOSPC")
          (set_performance_log (Some (history_garbled "Unexpected token")) sample_start)))
  = Some 0
  /\ exists log,
       performance_log (checkPerformance sample_failing).2 = Some (history_json log)
       /\ length log = 50%nat
       /\ In (Log, HistoryUpdated) (console (checkPerformance sample_failing).2).
Proof.
  destruct history_failure_is_advisory as (_ & _ & _ & _ & Hrun & Hinv).
  split.
  - destruct (Hinv sample_start (Some (history_garbled "Unexpected token")) (Some "ENOSPC"))
      as [Hexit _].
    rewrite Hexit. vm_compute. reflexivity.
  - set (lhr := sample_lhr (Js.of_frac 5 10) (Js.of_Z 1800)).
    destruct (returned (extract_and_check lhr sample_failing))
      as [[[scores metrics] st]|] eqn:He; [|vm_compute in He; discriminate].
    destruct (Hrun sample_failing lhr scores metrics st eq_refl He) as (_ & _ & Happ).
    destruct (Happ full_history) as (e & Hlog & _ & Hin);
      [right; reflexivity|left; reflexivity|reflexivity|].
    eexists. split; [exact Hlog|]. split; [|exact Hin].
    reflexivity.
Defined.
